(** * use-watermark: the tile pipeline of [src/lib/useWatermark.ts]

    A shallow embedding of the three functions of the hook:
    [hexToRgba] (colour parser), [createWatermarkImage] (canvas pipeline) and
    [useWatermark] (memoised binding), followed by the properties the
    specification states about them.

    Modelling conventions.
    - A JavaScript number is a real number ([R]): rounding, overflow and the
      non-finite doubles are outside the model.  The one place where the
      source can produce [NaN], the result of [parseInt], has its own type
      [IntegerOrNaN].
    - A JavaScript string is a [string]; its characters stand for code units
      below 256.
    - The browser is a [Platform] (text measurement, PNG encoder, printing of
      non-integral numbers, parsing of fonts and colours) and a mutable [World] (the ambient
      [window.devicePixelRatio], whether a 2D context can be had, and the
      canvas objects created so far).  Code that touches the world runs in
      the monad [JS], which threads the world and may throw. *)

From Stdlib Require Import Reals Lra Lia ZArith String Ascii List Bool.
From Stdlib Require Import DecimalString Zfloor.
From stdpp Require Import base gmap.

Import ListNotations.
Local Open Scope string_scope.
Local Open Scope Z_scope.

(** ** Strings and integers of the language *)

Module JSString.

(** [String.prototype.slice(start, end)]: negative indices count from the
    end, both ends are clamped to the string. *)
Definition slice (s : string) (intStart intEnd : Z) : string :=
  let len := Z.of_nat (String.length s) in
  let from := if intStart <? 0 then Z.max (len + intStart) 0 else Z.min intStart len in
  let to := if intEnd <? 0 then Z.max (len + intEnd) 0 else Z.min intEnd len in
  let span := Z.max (to - from) 0 in
  substring (Z.to_nat from) (Z.to_nat span) s.

(** Code unit of the character at an index, when there is one. *)
Definition charAt (s : string) (i : nat) : option ascii := String.get i s.

(** [WhiteSpace] and [LineTerminator] code units below 256:
    TAB, LF, VT, FF, CR, SP and NBSP. *)
Definition isWhiteSpace (c : ascii) : bool :=
  let n := Z.of_N (N_of_ascii c) in
  ((9 <=? n) && (n <=? 13)) || (n =? 32) || (n =? 160).

Fixpoint trimStart (s : string) : string :=
  match s with
  | EmptyString => EmptyString
  | String c rest => if isWhiteSpace c then trimStart rest else s
  end.

End JSString.

Module JSNumber.

(** What [parseInt] returns: an integer or [NaN]. *)
Inductive IntegerOrNaN : Type :=
| NaN
| Int (z : Z).

(** Value of a character as a digit: 0-9, then a-z and A-Z for 10 to 35. *)
Definition digitValue (c : ascii) : option Z :=
  let n := Z.of_N (N_of_ascii c) in
  if (48 <=? n) && (n <=? 57) then Some (n - 48)
  else if (97 <=? n) && (n <=? 122) then Some (n - 87)
  else if (65 <=? n) && (n <=? 90) then Some (n - 55)
  else None.

Definition radixDigit (R : Z) (c : ascii) : option Z :=
  match digitValue c with
  | Some d => if d <? R then Some d else None
  | None => None
  end.

(** The digits of the longest prefix of [s] made of radix-[R] digits. *)
Fixpoint takeDigits (R : Z) (s : string) : list Z :=
  match s with
  | EmptyString => []
  | String c rest =>
      match radixDigit R c with
      | Some d => d :: takeDigits R rest
      | None => []
      end
  end.

Definition mathInt (R : Z) (ds : list Z) : Z :=
  fold_left (fun acc d => acc * R + d) ds 0.

Definition startsWith0x (s : string) : bool :=
  match s with
  | String "0" (String "x" _) => true
  | String "0" (String "X" _) => true
  | _ => false
  end.

(** [parseInt(string, radix)] of ECMAScript, for a radix that is already an
    integer: skip leading white space, read a sign, drop a [0x] prefix in
    base 16, read the longest run of digits, [NaN] when it is empty. *)
Definition parseInt (inputString : string) (radix : Z) : IntegerOrNaN :=
  let S := JSString.trimStart inputString in
  let sign := match S with String "-" _ => -1 | _ => 1 end in
  let S := match S with
           | String "+" rest => rest
           | String "-" rest => rest
           | _ => S
           end in
  if (radix =? 0) || ((2 <=? radix) && (radix <=? 36)) then
    let stripPrefix := (radix =? 0) || (radix =? 16) in
    let R := if radix =? 0 then 10 else radix in
    let hasPrefix := stripPrefix && startsWith0x S in
    let R := if hasPrefix then 16 else R in
    let S := if hasPrefix then JSString.slice S 2 (Z.of_nat (String.length S)) else S in
    match takeDigits R S with
    | [] => NaN
    | ds => Int (sign * mathInt R ds)
    end
  else NaN.

(** [ToString] of an integer below 10^21 in absolute value (decimal digits,
    a leading minus sign), and of [NaN]. *)
Definition integerToString (z : Z) : string := NilZero.string_of_int (Z.to_int z).

Definition toString (n : IntegerOrNaN) : string :=
  match n with
  | NaN => "NaN"
  | Int z => integerToString z
  end.

End JSNumber.

Import JSString JSNumber.

(** ** The browser: platform functions, canvas objects and the world *)

Local Open Scope R_scope.

(** The affine transform of a 2D context, [[a c e; b d f; 0 0 1]]. *)
Record Matrix : Type := mkMatrix { m_a : R; m_b : R; m_c : R; m_d : R; m_e : R; m_f : R }.

Definition identityMatrix : Matrix := mkMatrix 1 0 0 1 0 0.

(** [multiply T U] is the transform that applies [U] first and [T] second. *)
Definition multiply (T U : Matrix) : Matrix :=
  mkMatrix (m_a T * m_a U + m_c T * m_b U) (m_b T * m_a U + m_d T * m_b U)
           (m_a T * m_c U + m_c T * m_d U) (m_b T * m_c U + m_d T * m_d U)
           (m_a T * m_e U + m_c T * m_f U + m_e T) (m_b T * m_e U + m_d T * m_f U + m_f T).

Definition scaleMatrix (x y : R) : Matrix := mkMatrix x 0 0 y 0 0.
Definition translateMatrix (x y : R) : Matrix := mkMatrix 1 0 0 1 x y.
Definition rotateMatrix (angle : R) : Matrix :=
  mkMatrix (cos angle) (sin angle) (- sin angle) (cos angle) 0 0.

(** The drawing state of a 2D context (the part the hook touches). *)
Record DrawingState : Type := mkDrawingState {
  transform : Matrix;
  font : string;
  fillStyle : string;
  textAlign : string;
  textBaseline : string
}.

Definition defaultDrawingState : DrawingState :=
  mkDrawingState identityMatrix "10px sans-serif" "#000000" "start" "alphabetic".

(** What was painted on a canvas, each operation with the state it ran in. *)
Inductive PaintOp : Type :=
| ClearRect (T : Matrix) (x y w h : R)
| FillText (st : DrawingState) (text : string) (x y : R).

Record HTMLCanvasElement : Type := mkCanvas {
  width : R;
  height : R;
  state : DrawingState;
  painted : list PaintOp
}.

(** A canvas fresh from [document.createElement('canvas')]: 300 by 150,
    transparent, default drawing state. *)
Definition newCanvas : HTMLCanvasElement := mkCanvas 300 150 defaultDrawingState [].

(** What the browser computes and the source cannot see into. *)
Record Platform : Type := mkPlatform {
  (** [Number::toString] on a number that is not an integer below 10^21. *)
  fractionToString : R -> string;
  (** advance width of a text in a font (the [font] string of the context). *)
  measureTextWidth : string -> string -> R;
  (** [toDataURL(type)]: the encoding of a bitmap of a given width and
      height on which the operations were painted. *)
  encodeDataURL : string -> R -> R -> list PaintOp -> string;
  (** whether a string parses as a CSS font value, and as a CSS colour: a
      context ignores the assignment of a [font] or a [fillStyle] that does
      not. *)
  parsesAsFont : string -> bool;
  parsesAsColor : string -> bool
}.

(** The inline style of an element, the five properties the hook assigns. *)
Record CSSStyle : Type := mkStyle {
  backgroundRepeat : string;
  pointerEvents : string;
  zIndex : string;
  backgroundImage : string;
  backgroundSize : string
}.

(** The ambient state: [window.devicePixelRatio] ([None] when the browser
    does not define it), whether [getContext('2d')] hands out a context, the
    canvas objects created so far and the styles of the elements of the page,
    both by reference. *)
Record World : Type := mkWorld {
  devicePixelRatio : option R;
  context2dAvailable : bool;
  canvases : gmap nat HTMLCanvasElement;
  nextRef : nat;
  styles : gmap nat CSSStyle
}.

Definition withCanvases (w : World) (cs : gmap nat HTMLCanvasElement) (next : nat) : World :=
  mkWorld (devicePixelRatio w) (context2dAvailable w) cs next (styles w).

Definition withStyles (w : World) (st : gmap nat CSSStyle) : World :=
  mkWorld (devicePixelRatio w) (context2dAvailable w) (canvases w) (nextRef w) st.

(** ** Completions and the monad of effectful code *)

(** A thrown value: the name of its constructor and its message.  Engines
    word the message of a [TypeError] differently; the model keeps in it the
    name of the member whose access failed. *)
Record Exn : Type := mkExn { exnName : string; exnMessage : string }.

Definition TypeError (message : string) : Exn := mkExn "TypeError" message.

Inductive Completion (A : Type) : Type :=
| Normal (a : A)
| Throw (e : Exn).
Arguments Normal {A} a.
Arguments Throw {A} e.

Definition JS (A : Type) : Type := World -> Completion A * World.

Definition ret {A} (a : A) : JS A := fun w => (Normal a, w).

Definition bind {A B} (m : JS A) (k : A -> JS B) : JS B :=
  fun w => match m w with
           | (Normal a, w') => k a w'
           | (Throw e, w') => (Throw e, w')
           end.

Definition throw {A} (e : Exn) : JS A := fun w => (Throw e, w).

Declare Scope js_scope.
Delimit Scope js_scope with js.
Notation "x <- m ;; k" := (bind m (fun x => k))
  (at level 100, m at next level, right associativity) : js_scope.
Notation "m ;; k" := (bind m (fun _ => k))
  (at level 100, right associativity) : js_scope.
Local Open Scope js_scope.

(** [a || b] on numbers: [b] when [a] is undefined or zero. *)
Definition orElse (a : option R) (b : R) : R :=
  match a with
  | Some x => if Req_dec_T x 0 then b else x
  | None => b
  end.

(** [Math.sqrt], on the non-negative numbers (the code takes the root of a
    sum of two squares). *)
Definition Math_sqrt (x : R) : R := sqrt x.
Definition Math_ceil (x : R) : R := IZR (Zceil x).

(** The keywords [textAlign] and [textBaseline] accept; the assignment of any
    other string is ignored. *)
Definition validTextAlign (v : string) : bool :=
  existsb (String.eqb v) ["start"; "end"; "left"; "right"; "center"].

Definition validTextBaseline (v : string) : bool :=
  existsb (String.eqb v) ["top"; "hanging"; "middle"; "alphabetic"; "ideographic"; "bottom"].

Definition isIntegral (x : R) : bool :=
  if Req_dec_T x (IZR (Zfloor x)) then true else false.

Definition belowExponentForm (x : R) : bool :=
  if Rlt_dec (Rabs x) (10 ^ 21) then true else false.

Section Browser.

Context (P : Platform).

(** [`${x}`] for a number [x]. *)
Definition Number_toString (x : R) : string :=
  if isIntegral x && belowExponentForm x
  then integerToString (Zfloor x)
  else fractionToString P x.

(** *** DOM and canvas operations *)

Definition window_devicePixelRatio : JS (option R) :=
  fun w => (Normal (devicePixelRatio w), w).

(** [document.createElement('canvas')]: a new object, named by a new
    reference. *)
Definition document_createElement_canvas : JS nat :=
  fun w => (Normal (nextRef w),
            withCanvases w (<[nextRef w := newCanvas]> (canvases w)) (S (nextRef w))).

(** [canvas.getContext('2d')]: the context of the canvas (it shares the
    canvas's reference), or [null]. *)
Definition getContext2d (canvas : nat) : JS (option nat) :=
  fun w => (Normal (if context2dAvailable w then Some canvas else None), w).

(** Reading and writing the object behind a reference.  A reference the code
    holds always names an object; the other branch is there to make the
    function total. *)
Definition readCanvas (canvas : nat) : JS HTMLCanvasElement :=
  fun w => match canvases w !! canvas with
           | Some c => (Normal c, w)
           | None => (Throw (TypeError "not a canvas"), w)
           end.

Definition writeCanvas (canvas : nat) (c : HTMLCanvasElement) : JS unit :=
  fun w => (Normal tt, withCanvases w (<[canvas := c]> (canvases w)) (nextRef w)).

(** Any member access on a context that is [null] throws. *)
Definition deref (ctx : option nat) (member : string) : JS nat :=
  match ctx with
  | Some r => ret r
  | None => throw (TypeError member)
  end.

Definition updateState (ctx : option nat) (member : string)
    (f : DrawingState -> DrawingState) : JS unit :=
  r <- deref ctx member ;;
  c <- readCanvas r ;;
  writeCanvas r (mkCanvas (width c) (height c) (f (state c)) (painted c)).

Definition paint (ctx : option nat) (member : string)
    (op : DrawingState -> PaintOp) : JS unit :=
  r <- deref ctx member ;;
  c <- readCanvas r ;;
  writeCanvas r (mkCanvas (width c) (height c) (state c) (painted c ++ [op (state c)])).

(** The four setters of the drawing state.  Each keeps the value the context
    had when the string assigned is not one it accepts. *)
Definition set_font (ctx : option nat) (v : string) : JS unit :=
  updateState ctx "font"
    (fun s => if parsesAsFont P v
              then mkDrawingState (transform s) v (fillStyle s) (textAlign s) (textBaseline s)
              else s).

Definition set_fillStyle (ctx : option nat) (v : string) : JS unit :=
  updateState ctx "fillStyle"
    (fun s => if parsesAsColor P v
              then mkDrawingState (transform s) (font s) v (textAlign s) (textBaseline s)
              else s).

Definition set_textAlign (ctx : option nat) (v : string) : JS unit :=
  updateState ctx "textAlign"
    (fun s => if validTextAlign v
              then mkDrawingState (transform s) (font s) (fillStyle s) v (textBaseline s)
              else s).

Definition set_textBaseline (ctx : option nat) (v : string) : JS unit :=
  updateState ctx "textBaseline"
    (fun s => if validTextBaseline v
              then mkDrawingState (transform s) (font s) (fillStyle s) (textAlign s) v
              else s).

Definition applyTransform (ctx : option nat) (member : string) (U : Matrix) : JS unit :=
  updateState ctx member
    (fun s => mkDrawingState (multiply (transform s) U) (font s) (fillStyle s)
                             (textAlign s) (textBaseline s)).

Definition ctx_scale (ctx : option nat) (x y : R) : JS unit :=
  applyTransform ctx "scale" (scaleMatrix x y).

Definition ctx_translate (ctx : option nat) (x y : R) : JS unit :=
  applyTransform ctx "translate" (translateMatrix x y).

Definition ctx_rotate (ctx : option nat) (angle : R) : JS unit :=
  applyTransform ctx "rotate" (rotateMatrix angle).

Definition ctx_clearRect (ctx : option nat) (x y w h : R) : JS unit :=
  paint ctx "clearRect" (fun s => ClearRect (transform s) x y w h).

Definition ctx_fillText (ctx : option nat) (text : string) (x y : R) : JS unit :=
  paint ctx "fillText" (fun s => FillText s text x y).

(** [ctx.measureText(text).width], in the font the context has now. *)
Definition ctx_measureText_width (ctx : option nat) (text : string) : JS R :=
  r <- deref ctx "measureText" ;;
  c <- readCanvas r ;;
  ret (measureTextWidth P (font (state c)) text).

Definition get_width (canvas : nat) : JS R :=
  c <- readCanvas canvas ;; ret (width c).

Definition get_height (canvas : nat) : JS R :=
  c <- readCanvas canvas ;; ret (height c).

(** Assigning [canvas.width] or [canvas.height] resizes the bitmap: the
    browser clears it and puts the context back in its default state. *)
Definition set_width (canvas : nat) (v : R) : JS unit :=
  c <- readCanvas canvas ;;
  writeCanvas canvas (mkCanvas v (height c) defaultDrawingState []).

Definition set_height (canvas : nat) (v : R) : JS unit :=
  c <- readCanvas canvas ;;
  writeCanvas canvas (mkCanvas (width c) v defaultDrawingState []).

Definition canvas_toDataURL (canvas : nat) (type : string) : JS string :=
  c <- readCanvas canvas ;;
  ret (encodeDataURL P type (width c) (height c) (painted c)).

(** ** The source *)

(** [hexToRgba], lines 132-137: the three channels it parses. *)
Definition hexToRgba_channels (hex : string) : IntegerOrNaN * IntegerOrNaN * IntegerOrNaN :=
  let r := parseInt (slice hex 1 3) 16 in
  let g := parseInt (slice hex 3 5) 16 in
  let b := parseInt (slice hex 5 7) 16 in
  (r, g, b).

(** The template [`rgba(${r}, ${g}, ${b}, ${alpha})`]. *)
Definition rgbaTemplate (r g b : IntegerOrNaN) (alpha : R) : string :=
  ("rgba(" ++ toString r ++ ", " ++ toString g ++ ", " ++ toString b ++ ", "
     ++ Number_toString alpha ++ ")")%string.

Definition hexToRgba (hex : string) (alpha : R) : string :=
  let '(r, g, b) := hexToRgba_channels hex in
  rgbaTemplate r g b alpha.

Record WatermarkImageOption : Type := mkImageOption {
  fontSize : R;
  angle : R;
  opacity : R;
  color : string
}.

(** [createWatermarkImage], lines 82-130. *)
Definition createWatermarkImage (text : string) (options : WatermarkImageOption) : JS string :=
  let fontSize := fontSize options in
  let angle := angle options in
  let opacity := opacity options in
  let color := color options in
  ratio <- window_devicePixelRatio ;;
  let devicePixelRatio := orElse ratio 1 in
  canvas <- document_createElement_canvas ;;
  ctx <- getContext2d canvas ;;
  set_font ctx (Number_toString (fontSize * devicePixelRatio) ++ "px sans-serif")%string ;;
  textWidth <- ctx_measureText_width ctx text ;;
  let textHeight := fontSize * devicePixelRatio in
  let canvasSize := Math_ceil (Math_sqrt (textWidth ^ 2 + textHeight ^ 2)) in
  set_width canvas canvasSize ;;
  set_height canvas canvasSize ;;
  ctx_scale ctx devicePixelRatio devicePixelRatio ;;
  w <- get_width canvas ;;
  h <- get_height canvas ;;
  ctx_clearRect ctx 0 0 w h ;;
  w <- get_width canvas ;;
  h <- get_height canvas ;;
  ctx_translate ctx (w / (2 * devicePixelRatio)) (h / (2 * devicePixelRatio)) ;;
  ctx_rotate ctx (angle * PI / 180) ;;
  set_font ctx (Number_toString fontSize ++ "px sans-serif")%string ;;
  set_fillStyle ctx (hexToRgba color opacity) ;;
  set_textAlign ctx "center" ;;
  set_textBaseline ctx "middle" ;;
  ctx_fillText ctx text 0 0 ;;
  canvas_toDataURL canvas "image/png".

End Browser.

(** ** The hook *)

Section Hook.

Context (P : Platform).

(** [WatermarkOption = { size } & WatermarkImageOption]. *)
Record WatermarkOption : Type := mkOption {
  size : string;
  imageOption : WatermarkImageOption
}.

Definition defaultOption : WatermarkOption :=
  mkOption "180px 180px" (mkImageOption 14 (-45) (5 / 100) "#000000").

(** [{ ...defaultOption, ...option }] for an optional argument of type
    [WatermarkOption]. *)
Definition mergeOption (option : option WatermarkOption) : WatermarkOption :=
  match option with
  | Some o => o
  | None => defaultOption
  end.

(** The dependency array of the memo, [[text, fontSize, angle, opacity]]. *)
Definition MemoDeps : Type := (string * R * R * R)%type.

Definition sameNumber (x y : R) : bool := if Req_dec_T x y then true else false.

(** React compares dependency arrays item by item with [Object.is]. *)
Definition sameMemoDeps (d1 d2 : MemoDeps) : bool :=
  let '(t1, f1, a1, o1) := d1 in
  let '(t2, f2, a2, o2) := d2 in
  String.eqb t1 t2 && sameNumber f1 f2 && sameNumber a1 a2 && sameNumber o1 o2.

(** The dependency array of the effect, [[container, watermarkImage, size]]. *)
Definition EffectDeps : Type := (option nat * string * string)%type.

Definition sameContainer (c1 c2 : option nat) : bool :=
  match c1, c2 with
  | Some r1, Some r2 => Nat.eqb r1 r2
  | None, None => true
  | _, _ => false
  end.

Definition sameEffectDeps (d1 d2 : EffectDeps) : bool :=
  let '(c1, i1, s1) := d1 in
  let '(c2, i2, s2) := d2 in
  sameContainer c1 c2 && String.eqb i1 i2 && String.eqb s1 s2.

(** What React keeps for one mounted use of the hook: the state cell of
    [useState], the cell of [useMemo] (value and dependencies of the last
    computation) and the dependencies the effect last ran with. *)
Record Hooks : Type := mkHooks {
  container : option nat;
  memoCell : option (string * MemoDeps);
  effectCell : option EffectDeps
}.

Definition mountHooks : Hooks := mkHooks None None None.

(** [useMemo(factory, deps)]: the cached value when the dependencies are
    those of the last computation, the factory's result otherwise. *)
Definition useMemo (factory : JS string) (deps : MemoDeps)
    (cell : option (string * MemoDeps)) : JS (string * option (string * MemoDeps)) :=
  match cell with
  | Some (value, prevDeps) =>
      if sameMemoDeps prevDeps deps then ret (value, cell)
      else (value' <- factory ;; ret (value', Some (value', deps)))
  | None => value' <- factory ;; ret (value', Some (value', deps))
  end.

(** What one call of [useWatermark] returns besides the [ref] callback, and
    the effect it schedules. *)
Record Rendered : Type := mkRendered {
  watermarkImage : string;
  hooksAfter : Hooks;
  effectDeps : EffectDeps
}.

(** [useWatermark], lines 49-80: the body of one render. *)
Definition useWatermark (text : string) (option : option WatermarkOption)
    (hooks : Hooks) : JS Rendered :=
  let merged := mergeOption option in
  let fontSize := fontSize (imageOption merged) in
  let angle := angle (imageOption merged) in
  let opacity := opacity (imageOption merged) in
  let size := size merged in
  let color := color (imageOption merged) in
  let container := container hooks in
  memo <- useMemo
            (createWatermarkImage P text (mkImageOption fontSize angle opacity color))
            (text, fontSize, angle, opacity)
            (memoCell hooks) ;;
  let '(watermarkImage, cell) := memo in
  ret (mkRendered watermarkImage
                  (mkHooks container cell (effectCell hooks))
                  (container, watermarkImage, size)).

Definition readStyle (el : nat) : JS CSSStyle :=
  fun w => match styles w !! el with
           | Some st => (Normal st, w)
           | None => (Throw (TypeError "not an element"), w)
           end.

Definition writeStyle (el : nat) (st : CSSStyle) : JS unit :=
  fun w => (Normal tt, withStyles w (<[el := st]> (styles w))).

(** The [ref] callback, lines 63-70. *)
Definition ref (node : option nat) (hooks : Hooks) : JS Hooks :=
  match node with
  | None => ret hooks
  | Some containerEl =>
      st <- readStyle containerEl ;;
      writeStyle containerEl
        (mkStyle "repeat" "none" "9999" (backgroundImage st) (backgroundSize st)) ;;
      ret (mkHooks (Some containerEl) (memoCell hooks) (effectCell hooks))
  end.

(** The body of the effect, lines 72-77. *)
Definition watermarkEffect (deps : EffectDeps) : JS unit :=
  let '(container, watermarkImage, size) := deps in
  match container with
  | None => ret tt
  | Some el =>
      st <- readStyle el ;;
      writeStyle el
        (mkStyle (backgroundRepeat st) (pointerEvents st) (zIndex st)
                 ("url(" ++ watermarkImage ++ ")")%string size)
  end.

(** One render of the component by React: the body runs, and when it
    returns the effect runs if its dependencies changed.  A body that
    throws leaves the hooks as they were. *)
Definition renderAndCommit (text : string) (option : option WatermarkOption)
    (hooks : Hooks) : JS Hooks :=
  r <- useWatermark text option hooks ;;
  let h := hooksAfter r in
  let rerun := match effectCell h with
               | Some prev => negb (sameEffectDeps prev (effectDeps r))
               | None => true
               end in
  (if rerun then watermarkEffect (effectDeps r) else ret tt) ;;
  ret (mkHooks (container h) (memoCell h) (Some (effectDeps r))).

End Hook.

(** ** What the properties speak about *)

(** A world in which the canvas at reference [r] is [c]. *)
Definition holding (w : World) (cs : gmap nat HTMLCanvasElement) (r n : nat)
    (c : HTMLCanvasElement) : World :=
  withCanvases w (<[r := c]> cs) n.

(** The pixel ratio a call uses, [window.devicePixelRatio || 1]. *)
Definition pixelRatio (w : World) : R := orElse (devicePixelRatio w) 1.

Section Observables.

Context (P : Platform).

(** The font string [`${x}px sans-serif`]. *)
Definition fontOf (x : R) : string := (Number_toString P x ++ "px sans-serif")%string.

(** The font a new context has after the assignment of a font string: that
    string when it parses, the default font otherwise. *)
Definition fontAfter (v : string) : string :=
  if parsesAsFont P v then v else font defaultDrawingState.

(** The font the text is measured in, and the font it is drawn in. *)
Definition measureFont (w : World) (o : WatermarkImageOption) : string :=
  fontAfter (fontOf (fontSize o * pixelRatio w)).

Definition drawFont (o : WatermarkImageOption) : string :=
  fontAfter (fontOf (fontSize o)).

(** The fill style the text is drawn with: the string of [hexToRgba] when it
    parses as a colour, the default fill style otherwise. *)
Definition fillStyleOf (o : WatermarkImageOption) : string :=
  if parsesAsColor P (hexToRgba P (color o) (opacity o))
  then hexToRgba P (color o) (opacity o)
  else fillStyle defaultDrawingState.

(** The measured advance width and the height proxy of a call
    ([textWidth] and [textHeight] in the source). *)
Definition textWidthOf (w : World) (text : string) (o : WatermarkImageOption) : R :=
  measureTextWidth P (measureFont w o) text.

Definition textHeightOf (w : World) (o : WatermarkImageOption) : R :=
  fontSize o * pixelRatio w.

(** The canvas a call created, read back from the world it left. *)
Definition tileOf (text : string) (o : WatermarkImageOption) (w : World)
    : option HTMLCanvasElement :=
  match createWatermarkImage P text o w with
  | (Normal _, w') => canvases w' !! nextRef w
  | (Throw _, _) => None
  end.

(** Its side, the [width] of that canvas. *)
Definition tileSide (text : string) (o : WatermarkImageOption) (w : World) : option R :=
  match tileOf text o w with
  | Some c => Some (width c)
  | None => None
  end.

(** The drawing state and the bitmap the pipeline ends with. *)
Definition scaled (ratio : R) : Matrix := multiply identityMatrix (scaleMatrix ratio ratio).

Definition finalTransform (ratio side angle : R) : Matrix :=
  multiply
    (multiply (scaled ratio) (translateMatrix (side / (2 * ratio)) (side / (2 * ratio))))
    (rotateMatrix (angle * PI / 180)).

Definition finalState (w : World) (o : WatermarkImageOption) (side : R) : DrawingState :=
  mkDrawingState (finalTransform (pixelRatio w) side (angle o))
                 (drawFont o) (fillStyleOf o) "center" "middle".

Definition finalPainted (w : World) (text : string) (o : WatermarkImageOption) (side : R)
    : list PaintOp :=
  [ClearRect (scaled (pixelRatio w)) 0 0 side side; FillText (finalState w o side) text 0 0].

Definition finalCanvas (w : World) (text : string) (o : WatermarkImageOption) (side : R)
    : HTMLCanvasElement :=
  mkCanvas side side (finalState w o side) (finalPainted w text o side).

Definition canvasSizeOf (w : World) (text : string) (o : WatermarkImageOption) : R :=
  Math_ceil (Math_sqrt (textWidthOf w text o ^ 2 + textHeightOf w o ^ 2)).

End Observables.

(** The dependencies the memo of a render is keyed on. *)
Definition memoDepsOf (text : string) (option : option WatermarkOption) : MemoDeps :=
  let o := imageOption (mergeOption option) in
  (text, fontSize o, angle o, opacity o).

(** Whether the memo cell answers a render without running the factory. *)
Definition memoHit (hooks : Hooks) (deps : MemoDeps) : bool :=
  match memoCell hooks with
  | Some (_, prev) => sameMemoDeps prev deps
  | None => false
  end.

Definition withColor (o : WatermarkOption) (c : string) : WatermarkOption :=
  mkOption (size o)
    (mkImageOption (fontSize (imageOption o)) (angle (imageOption o))
                   (opacity (imageOption o)) c).

(** *** The colour notation [#RRGGBB], as the specification reads it *)

Definition isHexDigit (c : ascii) : bool :=
  match c with
  | "0" | "1" | "2" | "3" | "4" | "5" | "6" | "7" | "8" | "9"
  | "a" | "b" | "c" | "d" | "e" | "f"
  | "A" | "B" | "C" | "D" | "E" | "F" => true
  | _ => false
  end%char.

Definition hexValue (c : ascii) : Z :=
  match c with
  | "0" => 0 | "1" => 1 | "2" => 2 | "3" => 3 | "4" => 4
  | "5" => 5 | "6" => 6 | "7" => 7 | "8" => 8 | "9" => 9
  | "a" | "A" => 10 | "b" | "B" => 11 | "c" | "C" => 12
  | "d" | "D" => 13 | "e" | "E" => 14 | "f" | "F" => 15
  | _ => 0
  end%char%Z.

Definition hexDigits : list ascii := list_ascii_of_string "0123456789abcdefABCDEF".

(** The base-16 value of a pair of digits. *)
Definition pairValue (hi lo : ascii) : Z := (16 * hexValue hi + hexValue lo)%Z.

(** The string [#] followed by six characters. *)
Definition hexColor (r1 r2 g1 g2 b1 b2 : ascii) : string :=
  String "#" (String r1 (String r2 (String g1 (String g2 (String b1 (String b2 "")))))).

(** A slice in which [parseInt] finds nothing to read: it is empty, or its
    first character is no hex digit, no white space and no sign. *)
Definition startsUnreadable (s : string) : bool :=
  match s with
  | EmptyString => true
  | String c _ =>
      negb (isHexDigit c || isWhiteSpace c || Ascii.eqb c "+" || Ascii.eqb c "-")
  end.

(** *** A platform and two worlds to evaluate on *)

(** Non-integers print in millionths ([500000e-6] for one half), every
    character is 8 units wide in every font, the encoding of a bitmap only
    records its type and dimensions, a font string parses unless it starts
    with a minus sign, and a colour string parses unless it holds [NaN]. *)
Definition samplePlatform : Platform :=
  mkPlatform
    (fun x => (integerToString (Zfloor (x * 1000000)) ++ "e-6")%string)
    (fun _ text => 8 * INR (String.length text))
    (fun type w h _ =>
       ("data:" ++ type ++ ";" ++ integerToString (Zfloor w) ++ "x"
          ++ integerToString (Zfloor h))%string)
    (fun v => negb (String.prefix "-" v))
    (fun v => match String.index 0 "NaN" v with Some _ => false | None => true end).

(** A browser at pixel ratio 1 with nothing created yet. *)
Definition sampleWorld : World := mkWorld (Some 1) true ∅ 0 ∅.

(** The same browser when it hands out no 2D context. *)
Definition headlessWorld : World := mkWorld (Some 1) false ∅ 0 ∅.

Definition optionOfSize (fontSize : R) : WatermarkImageOption :=
  mkImageOption fontSize (-45) (5 / 100) "#000000".

(** *** Further notions used by the properties of the rest of the code *)

(** Where a transform sends the point [(x, y)]. *)
Definition applyMatrix (T : Matrix) (x y : R) : R * R :=
  (m_a T * x + m_c T * y + m_e T, m_b T * x + m_d T * y + m_f T).

(** The area factor of a transform. *)
Definition determinant (T : Matrix) : R := m_a T * m_d T - m_b T * m_c T.

(** The angle of the options in radians, as [ctx.rotate] receives it. *)
Definition radians (angle : R) : R := angle * PI / 180.

(** References are handed out in order: none at or past [nextRef] is in use. *)
Definition wellFormed (w : World) : Prop :=
  forall r : nat, (nextRef w <= r)%nat -> canvases w !! r = None.

(** A world that differs in [window.devicePixelRatio] only. *)
Definition withRatio (w : World) (ratio : option R) : World :=
  mkWorld ratio (context2dAvailable w) (canvases w) (nextRef w) (styles w).

Definition withSize (o : WatermarkOption) (s : string) : WatermarkOption :=
  mkOption s (imageOption o).

(** The style the hook gives its container, for an image and a size. *)
Definition watermarkStyle (image size : string) : CSSStyle :=
  mkStyle "repeat" "none" "9999" ("url(" ++ image ++ ")")%string size.

(** A channel as [parseInt] can return it from two characters. *)
Definition channelInRange (n : IntegerOrNaN) : bool :=
  match n with
  | NaN => true
  | Int z => ((-15 <=? z) && (z <=? 255))%Z
  end.

(** Every character, by code. *)
Definition allAscii : list ascii := map ascii_of_nat (seq 0 256).

(** The lowercase digit of a value below 16, and the two digits of a byte. *)
Definition toHexDigit (n : Z) : ascii :=
  nth (Z.to_nat n) (list_ascii_of_string "0123456789abcdef") "0"%char.

Definition toHexPair (z : Z) : string :=
  String (toHexDigit (z / 16)) (String (toHexDigit (z mod 16)) "").

(** An element with no inline style yet, and a page that holds one such
    element at the reference 0. *)
Definition blankStyle : CSSStyle := mkStyle "" "" "" "" "".

Definition pageWorld : World := mkWorld (Some 1) true ∅ 0 {[ 0%nat := blankStyle ]}.

(** * Properties *)

(** ** The language layer on examples *)

Example slice_bad_color :
  (slice "bad-color" 1 3, slice "bad-color" 3 5, slice "bad-color" 5 7) = ("ad", "-c", "ol").
Proof. reflexivity. Qed.

Example parseInt_samples :
  map (fun s => parseInt s 16) ["ff"; "FF"; "-c"; "ol"; "1g"; " 7"; "0x"; ""; "+a"]
  = [Int 255; Int 255; Int (-12); NaN; Int 1; Int 7; NaN; NaN; Int 10].
Proof. reflexivity. Qed.

(** ** Running the pipeline *)

(** One step of a sequence whose first action returns. *)
Lemma run_bind {A B} (m : JS A) (k : A -> JS B) (w w' : World) (a : A) :
  m w = (Normal a, w') -> bind m k w = k a w'.
Proof. intros H. unfold bind. rewrite H. reflexivity. Qed.

Lemma run_bind_throw {A B} (m : JS A) (k : A -> JS B) (w w' : World) (e : Exn) :
  m w = (Throw e, w') -> bind m k w = (Throw e, w').
Proof. intros H. unfold bind. rewrite H. reflexivity. Qed.

Section CanvasSteps.

Context (P : Platform) (w : World) (cs : gmap nat HTMLCanvasElement) (r n : nat).

Local Abbreviation holds := (holding w cs r n).

Lemma readCanvas_run c : readCanvas r (holds c) = (Normal c, holds c).
Proof. unfold readCanvas, holding. cbn. rewrite lookup_insert_eq. reflexivity. Qed.

Lemma writeCanvas_run c c' : writeCanvas r c' (holds c) = (Normal tt, holds c').
Proof.
  unfold writeCanvas, holding, withCanvases. cbn. rewrite insert_insert_eq. reflexivity.
Qed.

Lemma updateState_run member f c :
  updateState (Some r) member f (holds c)
  = (Normal tt, holds (mkCanvas (width c) (height c) (f (state c)) (painted c))).
Proof.
  unfold updateState, deref. unfold bind at 1. unfold ret at 1.
  rewrite (run_bind _ _ _ _ _ (readCanvas_run c)). apply writeCanvas_run.
Qed.

Lemma paint_run member op c :
  paint (Some r) member op (holds c)
  = (Normal tt,
     holds (mkCanvas (width c) (height c) (state c) (painted c ++ [op (state c)]))).
Proof.
  unfold paint, deref. unfold bind at 1. unfold ret at 1.
  rewrite (run_bind _ _ _ _ _ (readCanvas_run c)). apply writeCanvas_run.
Qed.

Lemma measure_run text c :
  ctx_measureText_width P (Some r) text (holds c)
  = (Normal (measureTextWidth P (font (state c)) text), holds c).
Proof.
  unfold ctx_measureText_width, deref. unfold bind at 1. unfold ret at 1.
  rewrite (run_bind _ _ _ _ _ (readCanvas_run c)). reflexivity.
Qed.

Lemma get_width_run c : get_width r (holds c) = (Normal (width c), holds c).
Proof. unfold get_width. rewrite (run_bind _ _ _ _ _ (readCanvas_run c)). reflexivity. Qed.

Lemma get_height_run c : get_height r (holds c) = (Normal (height c), holds c).
Proof. unfold get_height. rewrite (run_bind _ _ _ _ _ (readCanvas_run c)). reflexivity. Qed.

Lemma set_width_run v c :
  set_width r v (holds c) = (Normal tt, holds (mkCanvas v (height c) defaultDrawingState [])).
Proof.
  unfold set_width. rewrite (run_bind _ _ _ _ _ (readCanvas_run c)). apply writeCanvas_run.
Qed.

Lemma set_height_run v c :
  set_height r v (holds c) = (Normal tt, holds (mkCanvas (width c) v defaultDrawingState [])).
Proof.
  unfold set_height. rewrite (run_bind _ _ _ _ _ (readCanvas_run c)). apply writeCanvas_run.
Qed.

Lemma toDataURL_run type c :
  canvas_toDataURL P r type (holds c)
  = (Normal (encodeDataURL P type (width c) (height c) (painted c)), holds c).
Proof.
  unfold canvas_toDataURL. rewrite (run_bind _ _ _ _ _ (readCanvas_run c)). reflexivity.
Qed.

End CanvasSteps.

Ltac js_step :=
  erewrite run_bind by
    first [ apply updateState_run | apply paint_run | apply measure_run
          | apply get_width_run | apply get_height_run
          | apply set_width_run | apply set_height_run ];
  cbn [width height state painted font transform fillStyle textAlign textBaseline app].

Section Pipeline.

Context (P : Platform).

(** The whole run when a context is available: the data URL returned and the
    world left, in which the new canvas is the finished tile. *)
Lemma createWatermarkImage_run (text : string) (o : WatermarkImageOption) (w : World) :
  context2dAvailable w = true ->
  createWatermarkImage P text o w =
    (Normal (encodeDataURL P "image/png" (canvasSizeOf P w text o) (canvasSizeOf P w text o)
               (finalPainted P w text o (canvasSizeOf P w text o))),
     withCanvases w
       (<[nextRef w := finalCanvas P w text o (canvasSizeOf P w text o)]> (canvases w))
       (S (nextRef w))).
Proof.
  intros Hctx.
  unfold createWatermarkImage.
  unfold bind at 1, window_devicePixelRatio.
  unfold bind at 1, document_createElement_canvas.
  unfold bind at 1, getContext2d.
  cbn [withCanvases context2dAvailable]. rewrite Hctx.
  fold (withCanvases w (<[nextRef w:=newCanvas]> (canvases w)) (S (nextRef w))).
  fold (holding w (canvases w) (nextRef w) (S (nextRef w)) newCanvas).
  fold (pixelRatio w).
  unfold set_font, set_fillStyle, set_textAlign, set_textBaseline,
    ctx_scale, ctx_translate, ctx_rotate, applyTransform, ctx_clearRect, ctx_fillText.
  change (validTextAlign "center") with true.
  change (validTextBaseline "middle") with true.
  fold (fontOf P (fontSize o * pixelRatio w)). fold (fontOf P (fontSize o)).
  unfold canvasSizeOf, finalCanvas, finalPainted, finalState, textWidthOf, measureFont,
    drawFont, fillStyleOf, fontAfter.
  destruct (parsesAsFont P (fontOf P (fontSize o * pixelRatio w)));
    destruct (parsesAsFont P (fontOf P (fontSize o)));
    destruct (parsesAsColor P (hexToRgba P (color o) (opacity o)));
    do 17 js_step; rewrite toDataURL_run; reflexivity.
Qed.

(** With no context the first member access, [ctx.font = ...], throws. *)
Lemma createWatermarkImage_null (text : string) (o : WatermarkImageOption) (w : World) :
  context2dAvailable w = false ->
  createWatermarkImage P text o w =
    (Throw (TypeError "font"),
     withCanvases w (<[nextRef w := newCanvas]> (canvases w)) (S (nextRef w))).
Proof.
  intros Hctx.
  unfold createWatermarkImage.
  unfold bind at 1, window_devicePixelRatio.
  unfold bind at 1, document_createElement_canvas.
  unfold bind at 1, getContext2d.
  cbn [withCanvases context2dAvailable]. rewrite Hctx.
  reflexivity.
Qed.

Lemma tileOf_run (text : string) (o : WatermarkImageOption) (w : World) :
  context2dAvailable w = true ->
  tileOf P text o w = Some (finalCanvas P w text o (canvasSizeOf P w text o)).
Proof.
  intros Hctx. unfold tileOf. rewrite createWatermarkImage_run by exact Hctx.
  cbn [withCanvases canvases]. apply lookup_insert_eq.
Qed.

Lemma tileOf_null (text : string) (o : WatermarkImageOption) (w : World) :
  context2dAvailable w = false -> tileOf P text o w = None.
Proof.
  intros Hctx. unfold tileOf. rewrite createWatermarkImage_null by exact Hctx. reflexivity.
Qed.

Lemma tileSide_run (text : string) (o : WatermarkImageOption) (w : World) :
  context2dAvailable w = true -> tileSide P text o w = Some (canvasSizeOf P w text o).
Proof. intros Hctx. unfold tileSide. rewrite tileOf_run by exact Hctx. reflexivity. Qed.

Lemma tileSide_null (text : string) (o : WatermarkImageOption) (w : World) :
  context2dAvailable w = false -> tileSide P text o w = None.
Proof. intros Hctx. unfold tileSide. rewrite tileOf_null by exact Hctx. reflexivity. Qed.

End Pipeline.

(** ** Printing of numbers *)

Section Printing.

Context (P : Platform).

Lemma Number_toString_integer (z : Z) :
  Rabs (IZR z) < 10 ^ 21 -> Number_toString P (IZR z) = integerToString z.
Proof.
  intros Hz. unfold Number_toString, isIntegral, belowExponentForm.
  rewrite ZfloorZ.
  destruct (Req_dec_T (IZR z) (IZR z)) as [_|Hne]; [|contradiction].
  destruct (Rlt_dec (Rabs (IZR z)) (10 ^ 21)) as [_|Hge]; [|contradiction].
  reflexivity.
Qed.

Lemma Number_toString_fraction (x : R) (z : Z) :
  IZR z < x < IZR z + 1 -> Number_toString P x = fractionToString P x.
Proof.
  intros Hx. unfold Number_toString, isIntegral.
  rewrite (Zfloor_eq z x) by lra.
  destruct (Req_dec_T x (IZR z)) as [Heq|_]; [lra|]. reflexivity.
Qed.

End Printing.

(** ** Geometry of the tile *)

Section Ceiling.

Lemma Math_ceil_bound (x : R) : Math_ceil x - 1 < x <= Math_ceil x.
Proof. unfold Math_ceil. apply Zceil_bound. Qed.

Lemma Math_ceil_IZR (z : Z) : Math_ceil (IZR z) = IZR z.
Proof. unfold Math_ceil. f_equal. apply Zceil_eq. lra. Qed.

Lemma Math_ceil_le (x y : R) : x <= y -> Math_ceil x <= Math_ceil y.
Proof. intros H. unfold Math_ceil. apply IZR_le, Zceil_le, H. Qed.

(** The ceiling is the only integer within one above. *)
Lemma Math_ceil_unique (x : R) (n : Z) : IZR n - 1 < x <= IZR n -> Math_ceil x = IZR n.
Proof. intros H. unfold Math_ceil. f_equal. apply Zceil_eq, H. Qed.

Lemma diagonal_nonneg (tw th : R) : 0 <= tw ^ 2 + th ^ 2.
Proof. nra. Qed.

Lemma Math_sqrt_diagonal_le (tw1 tw2 th1 th2 : R) :
  0 <= tw1 <= tw2 -> 0 <= th1 <= th2 ->
  Math_sqrt (tw1 ^ 2 + th1 ^ 2) <= Math_sqrt (tw2 ^ 2 + th2 ^ 2).
Proof. intros Hw Hh. unfold Math_sqrt. apply sqrt_le_1_alt. nra. Qed.

(** With no width the diagonal is the height, whatever its sign. *)
Lemma Math_sqrt_zero_width (th : R) : Math_sqrt (0 ^ 2 + th ^ 2) = Rabs th.
Proof.
  unfold Math_sqrt. replace (0 ^ 2 + th ^ 2) with (Rsqr th) by (unfold Rsqr; ring).
  apply sqrt_Rsqr_abs.
Qed.

Lemma pixelRatio_nonzero (w : World) : pixelRatio w <> 0.
Proof.
  unfold pixelRatio, orElse. destruct (devicePixelRatio w) as [x|].
  - destruct (Req_dec_T x 0); lra.
  - lra.
Qed.

(** Every pixel ratio but zero is the ratio of some world. *)
Lemma pixelRatio_defined (x : R) (w : World) :
  devicePixelRatio w = Some x -> x <> 0 -> pixelRatio w = x.
Proof.
  intros Hw Hx. unfold pixelRatio, orElse. rewrite Hw.
  destruct (Req_dec_T x 0); [contradiction|reflexivity].
Qed.

Lemma pixelRatio_sampleWorld : pixelRatio sampleWorld = 1.
Proof. unfold pixelRatio, orElse, sampleWorld. cbn. destruct (Req_dec_T 1 0); lra. Qed.

(** On the sample browser a text is 8 units wide per character. *)
Lemma textWidthOf_sample (w : World) (text : string) (o : WatermarkImageOption) :
  textWidthOf samplePlatform w text o = 8 * INR (String.length text).
Proof. reflexivity. Qed.

Lemma textWidthOf_sample_empty (w : World) (o : WatermarkImageOption) :
  textWidthOf samplePlatform w "" o = 0.
Proof. rewrite textWidthOf_sample. cbn. lra. Qed.

(** The width measured when the font string is accepted. *)
Lemma textWidthOf_parsed (P : Platform) (w : World) (text : string)
    (o : WatermarkImageOption) :
  parsesAsFont P (fontOf P (fontSize o * pixelRatio w)) = true ->
  textWidthOf P w text o
  = measureTextWidth P (fontOf P (fontSize o * pixelRatio w)) text.
Proof. intros H. unfold textWidthOf, measureFont, fontAfter. rewrite H. reflexivity. Qed.

(** The sample browser accepts the font of 14 pixels. *)
Lemma sample_font_14_parses :
  parsesAsFont samplePlatform
    (fontOf samplePlatform (fontSize (optionOfSize 14) * pixelRatio sampleWorld)) = true.
Proof.
  rewrite pixelRatio_sampleWorld. cbn [optionOfSize fontSize]. rewrite Rmult_1_r.
  unfold fontOf. rewrite (Number_toString_integer samplePlatform 14)
    by (rewrite Rabs_pos_eq by lra; lra).
  reflexivity.
Qed.

Lemma ceil_diagonal_72_14 : Math_ceil (Math_sqrt (72 ^ 2 + 14 ^ 2)) = 74.
Proof.
  apply (Math_ceil_unique _ 74). unfold Math_sqrt.
  replace (72 ^ 2 + 14 ^ 2) with 5380 by lra.
  assert (H73 : sqrt (73 * 73) = 73) by (apply sqrt_square; lra).
  assert (H74 : sqrt (74 * 74) = 74) by (apply sqrt_square; lra).
  assert (Hlo : sqrt (73 * 73) < sqrt 5380) by (apply sqrt_lt_1_alt; lra).
  assert (Hhi : sqrt 5380 <= sqrt (74 * 74)) by (apply sqrt_le_1_alt; lra).
  lra.
Qed.

(** The sample browser on an empty text: the side is the font size in
    absolute value. *)
Lemma canvasSizeOf_sample_empty (z : Z) :
  canvasSizeOf samplePlatform sampleWorld "" (optionOfSize (IZR z)) = IZR (Z.abs z).
Proof.
  unfold canvasSizeOf. rewrite textWidthOf_sample_empty.
  rewrite Math_sqrt_zero_width. unfold textHeightOf. rewrite pixelRatio_sampleWorld.
  cbn [optionOfSize fontSize]. rewrite Rmult_1_r, <- abs_IZR. apply Math_ceil_IZR.
Qed.

(** The side is at least the width and at least the height of the text. *)
Lemma canvasSizeOf_covers (P : Platform) (w : World) (text : string)
    (o : WatermarkImageOption) :
  Rabs (textWidthOf P w text o) <= canvasSizeOf P w text o
  /\ Rabs (textHeightOf w o) <= canvasSizeOf P w text o.
Proof.
  unfold canvasSizeOf.
  set (tw := textWidthOf P w text o). set (th := textHeightOf w o).
  destruct (Math_ceil_bound (Math_sqrt (tw ^ 2 + th ^ 2))) as [_ Hup].
  split; (eapply Rle_trans; [|exact Hup]); unfold Math_sqrt.
  - rewrite <- sqrt_Rsqr_abs. apply sqrt_le_1_alt. unfold Rsqr. nra.
  - rewrite <- sqrt_Rsqr_abs. apply sqrt_le_1_alt. unfold Rsqr. nra.
Qed.

(** The sample browser on the text WATERMARK at font size 14: 72 wide,
    14 high, a diagonal between 73 and 74. *)
Example canvasSizeOf_sample_WATERMARK :
  canvasSizeOf samplePlatform sampleWorld "WATERMARK" (optionOfSize 14) = 74.
Proof.
  unfold canvasSizeOf, textWidthOf, textHeightOf. rewrite pixelRatio_sampleWorld.
  cbn [samplePlatform measureTextWidth optionOfSize fontSize String.length].
  replace (8 * INR 9) with 72 by (cbn; lra). replace (14 * 1) with 14 by lra.
  apply ceil_diagonal_72_14.
Qed.

End Ceiling.

Section TileSide.

Context (P : Platform).

(** C1.  On the domain of the options (a positive font size, a positive
    pixel ratio, a font string the context accepts), when a context is
    available the tile is a square whose side is the least integer not below
    [sqrt (w^2 + h^2)], for [w] the width of the text measured in the font of
    [fontSize * ratio] pixels and [h = fontSize * ratio], the ratio being
    [window.devicePixelRatio || 1].  For a text measured with no width, as
    the text of zero length is, the side is the ceiling of [h]. *)
Theorem tile_side_is_ceiling_of_diagonal (text : string) (o : WatermarkImageOption)
    (w : World) :
  context2dAvailable w = true ->
  0 < fontSize o ->
  0 < pixelRatio w ->
  parsesAsFont P (fontOf P (fontSize o * pixelRatio w)) = true ->
  (exists n : Z,
      tileOf P text o w = Some (finalCanvas P w text o (IZR n))
      /\ tileSide P text o w = Some (IZR n)
      /\ IZR n - 1
         < sqrt (measureTextWidth P (fontOf P (fontSize o * pixelRatio w)) text ^ 2
                 + (fontSize o * pixelRatio w) ^ 2)
         <= IZR n)
  /\ tileSide P text o w
     = Some (Math_ceil
               (Math_sqrt (measureTextWidth P (fontOf P (fontSize o * pixelRatio w)) text ^ 2
                           + (fontSize o * pixelRatio w) ^ 2)))
  /\ (measureTextWidth P (fontOf P (fontSize o * pixelRatio w)) text = 0 ->
      tileSide P text o w = Some (Math_ceil (fontSize o * pixelRatio w))).
Proof.
  intros Hctx Hf Hr Hfont.
  pose proof (tileSide_run P text o w Hctx) as Hside.
  pose proof (tileOf_run P text o w Hctx) as Htile.
  unfold canvasSizeOf in Hside, Htile.
  rewrite (textWidthOf_parsed P w text o Hfont) in Hside, Htile.
  unfold textHeightOf in Hside, Htile.
  split; [|split].
  - exists (Zceil (Math_sqrt
                     (measureTextWidth P (fontOf P (fontSize o * pixelRatio w)) text ^ 2
                      + (fontSize o * pixelRatio w) ^ 2))).
    split; [exact Htile|]. split; [exact Hside|]. apply Zceil_bound.
  - exact Hside.
  - intros Hw. rewrite Hside, Hw, Math_sqrt_zero_width.
    rewrite Rabs_pos_eq by (apply Rlt_le, Rmult_lt_0_compat; assumption).
    reflexivity.
Qed.

(** C2.  The side does not depend on the angle: two calls that differ in the
    angle only leave tiles of the same side. *)
Theorem tile_side_ignores_angle (text : string) (fontSize angle1 angle2 opacity : R)
    (color : string) (w : World) :
  tileSide P text (mkImageOption fontSize angle1 opacity color) w
  = tileSide P text (mkImageOption fontSize angle2 opacity color) w.
Proof.
  destruct (context2dAvailable w) eqn:Hctx.
  - rewrite !tileSide_run by exact Hctx. reflexivity.
  - rewrite !tileSide_null by exact Hctx. reflexivity.
Qed.

(** C9.  Between two calls at the same pixel ratio, a measured width and a
    font size that do not decrease give a side that does not decrease (widths,
    font sizes and the ratio are not negative): the side is non-decreasing in
    the measured width and in the font size, each with the other fixed. *)
Theorem tile_side_monotone (text1 text2 : string) (o1 o2 : WatermarkImageOption) (w : World) :
  context2dAvailable w = true ->
  0 <= pixelRatio w ->
  0 <= textWidthOf P w text1 o1 <= textWidthOf P w text2 o2 ->
  0 <= fontSize o1 <= fontSize o2 ->
  exists s1 s2 : R,
    tileSide P text1 o1 w = Some s1 /\ tileSide P text2 o2 w = Some s2 /\ s1 <= s2.
Proof.
  intros Hctx Hratio Hw Hf.
  exists (canvasSizeOf P w text1 o1), (canvasSizeOf P w text2 o2).
  rewrite !tileSide_run by exact Hctx. repeat split.
  unfold canvasSizeOf. apply Math_ceil_le, Math_sqrt_diagonal_le; [exact Hw|].
  unfold textHeightOf. nra.
Qed.

(** C5, as the code has it.  A font size that is zero or negative is not
    refused: the call returns a data URL, and the tile it leaves has the side
    of the formula, which is zero when the width and the font size are. *)
Theorem nonpositive_font_size_renders (text : string) (o : WatermarkImageOption) (w : World) :
  context2dAvailable w = true ->
  fontSize o <= 0 ->
  (exists (url : string) (w' : World),
      createWatermarkImage P text o w = (Normal url, w'))
  /\ tileSide P text o w = Some (canvasSizeOf P w text o)
  /\ 0 <= canvasSizeOf P w text o
  /\ (fontSize o = 0 -> textWidthOf P w text o = 0 -> tileSide P text o w = Some 0).
Proof.
  intros Hctx Hf. repeat split.
  - rewrite createWatermarkImage_run by exact Hctx. eauto.
  - apply tileSide_run, Hctx.
  - unfold canvasSizeOf.
    destruct (Math_ceil_bound (Math_sqrt (textWidthOf P w text o ^ 2 + textHeightOf w o ^ 2)))
      as [_ Hup].
    eapply Rle_trans; [|exact Hup]. apply sqrt_pos.
  - intros H0 Hw. rewrite tileSide_run by exact Hctx. unfold canvasSizeOf, textHeightOf.
    rewrite Hw, H0, Rmult_0_l, Math_sqrt_zero_width, Rabs_R0. f_equal.
    apply (Math_ceil_IZR 0).
Qed.

End TileSide.

(** C1 on the sample browser: the text WATERMARK at font size 14 is 72 wide
    and 14 high, and its tile is 74 wide. *)
Lemma tile_side_is_ceiling_of_diagonal_witness :
  tileSide samplePlatform "WATERMARK" (optionOfSize 14) sampleWorld = Some 74.
Proof.
  destruct (tile_side_is_ceiling_of_diagonal samplePlatform "WATERMARK" (optionOfSize 14)
              sampleWorld) as (_ & H & _).
  - reflexivity.
  - cbn [optionOfSize fontSize]. lra.
  - rewrite pixelRatio_sampleWorld. lra.
  - exact sample_font_14_parses.
  - rewrite H, pixelRatio_sampleWorld.
    cbn [samplePlatform measureTextWidth optionOfSize fontSize String.length].
    replace (8 * INR 9) with 72 by (cbn; lra). replace (14 * 1) with 14 by lra.
    f_equal. apply ceil_diagonal_72_14.
Defined.

(** C9 on the sample browser: WATER at font size 10 and WATERMARK at font
    size 14. *)
Lemma tile_side_monotone_witness :
  exists s1 s2 : R,
    tileSide samplePlatform "WATER" (optionOfSize 10) sampleWorld = Some s1
    /\ tileSide samplePlatform "WATERMARK" (optionOfSize 14) sampleWorld = Some s2
    /\ s1 <= s2.
Proof.
  apply (tile_side_monotone samplePlatform "WATER" "WATERMARK" (optionOfSize 10)
           (optionOfSize 14) sampleWorld).
  - reflexivity.
  - rewrite pixelRatio_sampleWorld. lra.
  - rewrite !textWidthOf_sample. cbn. lra.
  - cbn [optionOfSize fontSize]. lra.
Defined.

(** C5 on the sample browser: the empty text at font size 0. *)
Lemma nonpositive_font_size_renders_witness :
  tileSide samplePlatform "" (optionOfSize 0) sampleWorld = Some 0.
Proof.
  destruct (nonpositive_font_size_renders samplePlatform "" (optionOfSize 0) sampleWorld)
    as (_ & _ & _ & H).
  - reflexivity.
  - cbn [optionOfSize fontSize]. lra.
  - apply H; [reflexivity | apply textWidthOf_sample_empty].
Defined.

(** C5 as stated fails: at font size 0 the call returns normally, with a tile
    of side 0; at font size -14 it returns normally too. *)
Lemma zero_font_size_returns :
  (exists (url : string) (w' : World),
      createWatermarkImage samplePlatform "" (optionOfSize 0) sampleWorld = (Normal url, w'))
  /\ tileSide samplePlatform "" (optionOfSize 0) sampleWorld = Some 0
  /\ (exists (url : string) (w' : World),
      createWatermarkImage samplePlatform "" (optionOfSize (-14)) sampleWorld
      = (Normal url, w')).
Proof.
  repeat split.
  - rewrite createWatermarkImage_run by reflexivity. eauto.
  - rewrite tileSide_run by reflexivity. f_equal. apply (canvasSizeOf_sample_empty 0).
  - rewrite createWatermarkImage_run by reflexivity. eauto.
Qed.

(** ** The colour parser *)

Section Slices.

Lemma substring_empty (n m : nat) : substring n m "" = "".
Proof. destruct n, m; reflexivity. Qed.

Lemma substring_none (n : nat) (s : string) : substring n 0 s = "".
Proof.
  revert s. induction n as [|n IH]; intros [|c s]; try reflexivity. cbn. apply IH.
Qed.

(** A substring is made of the characters at its indices. *)
Lemma substring_ext (n m : nat) (s s' : string) :
  (forall i : nat, (n <= i < n + m)%nat -> charAt s i = charAt s' i) ->
  substring n m s = substring n m s'.
Proof.
  unfold charAt. revert s s'. induction n as [|n IHn].
  - induction m as [|m IHm]; intros s s' H.
    + destruct s, s'; reflexivity.
    + destruct s as [|c s], s' as [|c' s'].
      * reflexivity.
      * specialize (H 0%nat ltac:(lia)). discriminate H.
      * specialize (H 0%nat ltac:(lia)). discriminate H.
      * pose proof (H 0%nat ltac:(lia)) as H0. cbn in H0. injection H0 as ->.
        cbn. f_equal. apply IHm. intros i Hi. apply (H (S i)). lia.
  - intros s s' H. destruct s as [|c s], s' as [|c' s'].
    + reflexivity.
    + cbn. rewrite <- (substring_empty n m). apply IHn.
      intros i Hi. specialize (H (S i) ltac:(lia)). cbn in H. rewrite <- H.
      destruct i; reflexivity.
    + cbn. rewrite <- (substring_empty n m). apply IHn.
      intros i Hi. specialize (H (S i) ltac:(lia)). cbn in H. rewrite H.
      destruct i; reflexivity.
    + cbn. apply IHn. intros i Hi. apply (H (S i)). lia.
Qed.

(** Inside the string, [slice] is the substring between its two indices. *)
Lemma slice_within (s : string) (a b : nat) :
  (a <= b <= String.length s)%nat ->
  slice s (Z.of_nat a) (Z.of_nat b) = substring a (b - a) s.
Proof.
  intros H. unfold slice.
  destruct (Z.ltb_spec (Z.of_nat a) 0) as [Hneg|_]; [lia|].
  destruct (Z.ltb_spec (Z.of_nat b) 0) as [Hneg|_]; [lia|].
  rewrite !Z.min_l by lia. rewrite Z.max_l by lia.
  rewrite Nat2Z.id. f_equal. lia.
Qed.

(** Past the end of the string, [slice] is empty. *)
Lemma slice_beyond (s : string) (a b : nat) :
  (String.length s <= a <= b)%nat -> slice s (Z.of_nat a) (Z.of_nat b) = "".
Proof.
  intros H. unfold slice.
  destruct (Z.ltb_spec (Z.of_nat a) 0) as [Hneg|_]; [lia|].
  destruct (Z.ltb_spec (Z.of_nat b) 0) as [Hneg|_]; [lia|].
  rewrite !Z.min_r by lia. rewrite Z.sub_diag. cbn [Z.max Z.compare Z.to_nat].
  apply substring_none.
Qed.

Lemma slice_ext (s s' : string) (a b : nat) :
  (a <= b <= String.length s)%nat -> (b <= String.length s')%nat ->
  (forall i : nat, (a <= i < b)%nat -> charAt s i = charAt s' i) ->
  slice s (Z.of_nat a) (Z.of_nat b) = slice s' (Z.of_nat a) (Z.of_nat b).
Proof.
  intros Hs Hs' H. rewrite !slice_within by lia.
  apply substring_ext. intros i Hi. apply H. lia.
Qed.

End Slices.

Section Digits.

Lemma isHexDigit_In (c : ascii) : isHexDigit c = true -> In c hexDigits.
Proof.
  destruct c as [[] [] [] [] [] [] [] []]; cbn; intros H; try discriminate H;
    repeat (first [left; reflexivity | right]).
Qed.

(** Two hex digits read in base 16. *)
Lemma parseInt_hex_pair (hi lo : ascii) :
  isHexDigit hi = true -> isHexDigit lo = true ->
  parseInt (String hi (String lo "")) 16 = Int (pairValue hi lo).
Proof.
  intros Hhi Hlo. apply isHexDigit_In in Hhi, Hlo. cbn in Hhi, Hlo.
  repeat (destruct Hhi as [<-|Hhi]); try contradiction;
    repeat (destruct Hlo as [<-|Hlo]); try contradiction; reflexivity.
Qed.

Lemma pairValue_byte (hi lo : ascii) :
  isHexDigit hi = true -> isHexDigit lo = true -> (0 <= pairValue hi lo <= 255)%Z.
Proof.
  intros Hhi Hlo. apply isHexDigit_In in Hhi, Hlo. cbn in Hhi, Hlo.
  repeat (destruct Hhi as [<-|Hhi]); try contradiction;
    repeat (destruct Hlo as [<-|Hlo]); try contradiction; cbv; split; discriminate.
Qed.

(** Nothing to read, nothing parsed. *)
Lemma parseInt_unreadable (s : string) : startsUnreadable s = true -> parseInt s 16 = NaN.
Proof.
  destruct s as [|c rest]; [reflexivity|].
  destruct c as [[] [] [] [] [] [] [] []]; cbn; intros H; try discriminate H; reflexivity.
Qed.

End Digits.

Section ColorClaims.

Context (P : Platform).

Lemma hexToRgba_unfold (hex : string) (alpha : R) :
  hexToRgba P hex alpha
  = rgbaTemplate P (parseInt (slice hex 1 3) 16) (parseInt (slice hex 3 5) 16)
                 (parseInt (slice hex 5 7) 16) alpha.
Proof. reflexivity. Qed.

(** The channels are read at the indices 1 to 6. *)
Lemma hexToRgba_channels_ext (hex1 hex2 : string) :
  (7 <= String.length hex1)%nat ->
  (7 <= String.length hex2)%nat ->
  (forall i : nat, (1 <= i <= 6)%nat -> charAt hex1 i = charAt hex2 i) ->
  slice hex1 1 3 = slice hex2 1 3
  /\ slice hex1 3 5 = slice hex2 3 5
  /\ slice hex1 5 7 = slice hex2 5 7.
Proof.
  intros H1 H2 Hsame.
  assert (Hs : forall a b : nat, (1 <= a)%nat -> (a <= b)%nat -> (b <= 7)%nat ->
               slice hex1 (Z.of_nat a) (Z.of_nat b) = slice hex2 (Z.of_nat a) (Z.of_nat b)).
  { intros a b Ha Hab Hb. apply slice_ext; try lia. intros i Hi. apply Hsame. lia. }
  split; [|split].
  - apply (Hs 1%nat 3%nat); lia.
  - apply (Hs 3%nat 5%nat); lia.
  - apply (Hs 5%nat 7%nat); lia.
Qed.

Lemma length_hexColor_append (r1 r2 g1 g2 b1 b2 : ascii) (rest : string) :
  String.length (hexColor r1 r2 g1 g2 b1 b2 ++ rest) = (7 + String.length rest)%nat.
Proof. reflexivity. Qed.

Lemma charAt_hexColor_append (r1 r2 g1 g2 b1 b2 : ascii) (rest : string) (i : nat) :
  (i <= 6)%nat ->
  charAt (hexColor r1 r2 g1 g2 b1 b2 ++ rest) i = charAt (hexColor r1 r2 g1 g2 b1 b2) i.
Proof.
  intros Hi. destruct i as [|[|[|[|[|[|[|i]]]]]]]; try reflexivity. lia.
Qed.

(** C3.  On [#] followed by six hex digits the three channels are the
    base-16 values of the three pairs, each a byte, and the string returned
    is [rgba(r, g, b, a)] with [a] the printed opacity: the alpha is the
    opacity given, whatever the colour string, also when two more digits
    (or anything else) follow the six. *)
Theorem hexToRgba_reads_hex_pairs (r1 r2 g1 g2 b1 b2 : ascii) (opacity : R) :
  isHexDigit r1 = true -> isHexDigit r2 = true ->
  isHexDigit g1 = true -> isHexDigit g2 = true ->
  isHexDigit b1 = true -> isHexDigit b2 = true ->
  hexToRgba_channels (hexColor r1 r2 g1 g2 b1 b2)
  = (Int (pairValue r1 r2), Int (pairValue g1 g2), Int (pairValue b1 b2))
  /\ hexToRgba P (hexColor r1 r2 g1 g2 b1 b2) opacity
     = ("rgba(" ++ integerToString (pairValue r1 r2) ++ ", "
          ++ integerToString (pairValue g1 g2) ++ ", "
          ++ integerToString (pairValue b1 b2) ++ ", "
          ++ Number_toString P opacity ++ ")")%string
  /\ (0 <= pairValue r1 r2 <= 255)%Z
  /\ (0 <= pairValue g1 g2 <= 255)%Z
  /\ (0 <= pairValue b1 b2 <= 255)%Z
  /\ (forall rest : string,
      hexToRgba P (hexColor r1 r2 g1 g2 b1 b2 ++ rest) opacity
      = hexToRgba P (hexColor r1 r2 g1 g2 b1 b2) opacity).
Proof.
  intros Hr1 Hr2 Hg1 Hg2 Hb1 Hb2.
  assert (Hch : hexToRgba_channels (hexColor r1 r2 g1 g2 b1 b2)
                = (Int (pairValue r1 r2), Int (pairValue g1 g2), Int (pairValue b1 b2))).
  { unfold hexToRgba_channels.
    change (slice (hexColor r1 r2 g1 g2 b1 b2) 1 3) with (String r1 (String r2 "")).
    change (slice (hexColor r1 r2 g1 g2 b1 b2) 3 5) with (String g1 (String g2 "")).
    change (slice (hexColor r1 r2 g1 g2 b1 b2) 5 7) with (String b1 (String b2 "")).
    rewrite !parseInt_hex_pair by assumption. reflexivity. }
  split; [exact Hch|]. split; [|split; [|split; [|split]]].
  - unfold hexToRgba. rewrite Hch. reflexivity.
  - apply pairValue_byte; assumption.
  - apply pairValue_byte; assumption.
  - apply pairValue_byte; assumption.
  - intros rest.
    destruct (hexToRgba_channels_ext (hexColor r1 r2 g1 g2 b1 b2 ++ rest)
                (hexColor r1 r2 g1 g2 b1 b2)) as (Hr & Hg & Hb).
    + rewrite length_hexColor_append. lia.
    + cbn. lia.
    + intros i Hi. apply charAt_hexColor_append. lia.
    + rewrite !hexToRgba_unfold, Hr, Hg, Hb. reflexivity.
Qed.

(** C10.  Two strings of seven characters or more that agree at the indices
    1 to 6 have the same channels and give the same string: the first
    character and everything from the index 7 on are never read. *)
Theorem hexToRgba_reads_indices_1_to_6 (hex1 hex2 : string) (alpha : R) :
  (7 <= String.length hex1)%nat ->
  (7 <= String.length hex2)%nat ->
  (forall i : nat, (1 <= i <= 6)%nat -> charAt hex1 i = charAt hex2 i) ->
  hexToRgba_channels hex1 = hexToRgba_channels hex2
  /\ hexToRgba P hex1 alpha = hexToRgba P hex2 alpha.
Proof.
  intros H1 H2 Hsame.
  destruct (hexToRgba_channels_ext hex1 hex2 H1 H2 Hsame) as (Hr & Hg & Hb).
  split.
  - unfold hexToRgba_channels. rewrite Hr, Hg, Hb. reflexivity.
  - rewrite !hexToRgba_unfold, Hr, Hg, Hb. reflexivity.
Qed.

(** C4, as the code has it.  No colour string is refused: [hexToRgba]
    returns [rgba(r, g, b, a)] for the three channels read, and the pipeline
    returns a data URL; a channel whose slice is unreadable is [NaN], as is
    the blue channel of a string of five characters or fewer. *)
Theorem malformed_color_is_not_refused (hex text : string) (fontSize angle alpha : R)
    (w : World) :
  context2dAvailable w = true ->
  (exists (url : string) (w' : World),
      createWatermarkImage P text (mkImageOption fontSize angle alpha hex) w = (Normal url, w'))
  /\ (exists r g b : IntegerOrNaN,
      hexToRgba_channels hex = (r, g, b)
      /\ hexToRgba P hex alpha = rgbaTemplate P r g b alpha
      /\ (startsUnreadable (slice hex 1 3) = true -> r = NaN)
      /\ (startsUnreadable (slice hex 3 5) = true -> g = NaN)
      /\ (startsUnreadable (slice hex 5 7) = true -> b = NaN)
      /\ ((String.length hex <= 5)%nat -> b = NaN)).
Proof.
  intros Hctx. split.
  - rewrite createWatermarkImage_run by exact Hctx. eexists _, _. reflexivity.
  - exists (parseInt (slice hex 1 3) 16), (parseInt (slice hex 3 5) 16),
      (parseInt (slice hex 5 7) 16).
    split; [reflexivity|]. split; [reflexivity|].
    repeat split; try apply parseInt_unreadable.
    intros Hlen. change (slice hex 5 7) with (slice hex (Z.of_nat 5) (Z.of_nat 7)).
    rewrite slice_beyond by lia. reflexivity.
Qed.

End ColorClaims.

(** The two colours the specification evaluates. *)
Example hexToRgba_black (P : Platform) :
  hexToRgba P "#000000" (5 / 100) = ("rgba(0, 0, 0, " ++ fractionToString P (5 / 100) ++ ")")%string.
Proof.
  rewrite hexToRgba_unfold. unfold rgbaTemplate.
  rewrite (Number_toString_fraction P (5 / 100) 0) by lra. reflexivity.
Qed.

Example hexToRgba_white (P : Platform) : hexToRgba P "#FFFFFF" 1 = "rgba(255, 255, 255, 1)".
Proof.
  rewrite hexToRgba_unfold. unfold rgbaTemplate.
  rewrite (Number_toString_integer P 1) by (rewrite Rabs_R1; lra). reflexivity.
Qed.

(** C3 on [#FFFFFF] at opacity 1. *)
Lemma hexToRgba_reads_hex_pairs_witness :
  hexToRgba_channels "#FFFFFF" = (Int 255, Int 255, Int 255)
  /\ hexToRgba samplePlatform "#FFFFFF" 1 = "rgba(255, 255, 255, 1)".
Proof.
  destruct (hexToRgba_reads_hex_pairs samplePlatform "F" "F" "F" "F" "F" "F" 1
              eq_refl eq_refl eq_refl eq_refl eq_refl eq_refl) as (Hch & Hstr & _).
  split; [exact Hch|].
  change (hexColor "F" "F" "F" "F" "F" "F") with "#FFFFFF" in Hstr. rewrite Hstr.
  rewrite (Number_toString_integer samplePlatform 1) by (rewrite Rabs_R1; lra).
  reflexivity.
Defined.

(** C10 on [#ff8800] and [xff8800ff]: neither the first character nor the
    trailing pair is read. *)
Lemma hexToRgba_reads_indices_1_to_6_witness :
  hexToRgba_channels "#ff8800" = hexToRgba_channels "xff8800ff"
  /\ hexToRgba samplePlatform "#ff8800" 1 = hexToRgba samplePlatform "xff8800ff" 1.
Proof.
  apply (hexToRgba_reads_indices_1_to_6 samplePlatform "#ff8800" "xff8800ff" 1).
  - cbn. lia.
  - cbn. lia.
  - intros i Hi.
    destruct i as [|[|[|[|[|[|[|i]]]]]]]; try reflexivity; lia.
Defined.

(** C4 on [bad-color] in the sample browser. *)
Lemma malformed_color_is_not_refused_witness :
  exists r g b : IntegerOrNaN,
    hexToRgba_channels "bad-color" = (r, g, b) /\ b = NaN.
Proof.
  destruct (malformed_color_is_not_refused samplePlatform "bad-color" "" 14 (-45) (1 / 2)
              sampleWorld eq_refl) as (_ & r & g & b & Hch & _ & _ & _ & Hb & _).
  exists r, g, b. split; [exact Hch|]. apply Hb. reflexivity.
Defined.

(** C4 as stated fails: [bad-color] is not refused, its channels are 173,
    -12 and [NaN], and the string returned holds the [NaN]. *)
Lemma bad_color_yields_NaN :
  hexToRgba_channels "bad-color" = (Int 173, Int (-12), NaN)
  /\ hexToRgba samplePlatform "bad-color" (1 / 2)
     = ("rgba(173, -12, NaN, " ++ fractionToString samplePlatform (1 / 2) ++ ")")%string
  /\ exists (url : string) (w' : World),
      createWatermarkImage samplePlatform "" (mkImageOption 14 (-45) (1 / 2) "bad-color")
        sampleWorld = (Normal url, w').
Proof.
  split; [reflexivity|]. split.
  - rewrite hexToRgba_unfold. unfold rgbaTemplate.
    rewrite (Number_toString_fraction samplePlatform (1 / 2) 0) by lra. reflexivity.
  - rewrite createWatermarkImage_run by reflexivity. eauto.
Qed.

(** ** The memoised binding *)

Section Memo.

Context (P : Platform).

Lemma sameNumber_true (x y : R) : sameNumber x y = true <-> x = y.
Proof. unfold sameNumber. destruct (Req_dec_T x y); split; congruence. Qed.

Lemma sameMemoDeps_true (d1 d2 : MemoDeps) : sameMemoDeps d1 d2 = true <-> d1 = d2.
Proof.
  destruct d1 as [[[t1 f1] a1] o1], d2 as [[[t2 f2] a2] o2]. unfold sameMemoDeps.
  rewrite !andb_true_iff, String.eqb_eq, !sameNumber_true. split.
  - intros [[[-> ->] ->] ->]. reflexivity.
  - intros H. injection H as -> -> -> ->. auto.
Qed.

Lemma sameMemoDeps_false (d1 d2 : MemoDeps) : sameMemoDeps d1 d2 = false <-> d1 <> d2.
Proof.
  rewrite <- sameMemoDeps_true. destruct (sameMemoDeps d1 d2); split; congruence.
Qed.

Lemma imageOption_eta (o : WatermarkImageOption) :
  mkImageOption (fontSize o) (angle o) (opacity o) (color o) = o.
Proof. destruct o. reflexivity. Qed.

Lemma hooks_eta (h : Hooks) : mkHooks (container h) (memoCell h) (effectCell h) = h.
Proof. destruct h. reflexivity. Qed.

(** Every call of the pipeline creates one canvas and touches no style. *)
Lemma createWatermarkImage_world (text : string) (o : WatermarkImageOption) (w : World) :
  nextRef (snd (createWatermarkImage P text o w)) = S (nextRef w)
  /\ styles (snd (createWatermarkImage P text o w)) = styles w
  /\ devicePixelRatio (snd (createWatermarkImage P text o w)) = devicePixelRatio w
  /\ context2dAvailable (snd (createWatermarkImage P text o w)) = context2dAvailable w.
Proof.
  destruct (context2dAvailable w) eqn:Hctx.
  - rewrite createWatermarkImage_run by exact Hctx. cbn. auto.
  - rewrite createWatermarkImage_null by exact Hctx. cbn. auto.
Qed.

(** A render whose dependencies are those of the cell returns the cached
    image and leaves the world alone. *)
Lemma useWatermark_hit (text : string) (option : option WatermarkOption) (hooks : Hooks)
    (value : string) (w : World) :
  memoCell hooks = Some (value, memoDepsOf text option) ->
  useWatermark P text option hooks w
  = (Normal (mkRendered value hooks (container hooks, value, size (mergeOption option))), w).
Proof.
  intros Hcell. unfold useWatermark, useMemo. rewrite Hcell.
  fold (memoDepsOf text option).
  rewrite (proj2 (sameMemoDeps_true _ _) eq_refl).
  unfold bind, ret. rewrite <- Hcell, hooks_eta. reflexivity.
Qed.

(** A render whose dependencies are not those of the cell runs the pipeline. *)
Lemma useWatermark_miss (text : string) (option : option WatermarkOption) (hooks : Hooks)
    (w : World) :
  memoHit hooks (memoDepsOf text option) = false ->
  useWatermark P text option hooks w
  = match createWatermarkImage P text (imageOption (mergeOption option)) w with
    | (Normal img, w') =>
        (Normal (mkRendered img
                   (mkHooks (container hooks) (Some (img, memoDepsOf text option))
                            (effectCell hooks))
                   (container hooks, img, size (mergeOption option))), w')
    | (Throw e, w') => (Throw e, w')
    end.
Proof.
  intros Hmiss. unfold useWatermark, useMemo, memoHit in *.
  rewrite imageOption_eta. fold (memoDepsOf text option).
  destruct (memoCell hooks) as [[value prev]|].
  - rewrite Hmiss. unfold bind, ret.
    destruct (createWatermarkImage P text (imageOption (mergeOption option)) w) as [[img|e] w'];
      reflexivity.
  - unfold bind, ret.
    destruct (createWatermarkImage P text (imageOption (mergeOption option)) w) as [[img|e] w'];
      reflexivity.
Qed.

(** After a render that returned, the cell holds the image returned, keyed on
    the dependencies of that render. *)
Lemma useWatermark_cell (text : string) (option : option WatermarkOption) (hooks : Hooks)
    (w w' : World) (r : Rendered) :
  useWatermark P text option hooks w = (Normal r, w') ->
  memoCell (hooksAfter r) = Some (watermarkImage r, memoDepsOf text option).
Proof.
  intros Hrun. destruct (memoHit hooks (memoDepsOf text option)) eqn:Hhit.
  - unfold memoHit in Hhit. destruct (memoCell hooks) as [[value prev]|] eqn:Hcell;
      [|discriminate Hhit].
    apply sameMemoDeps_true in Hhit. subst prev.
    rewrite (useWatermark_hit text option hooks value w Hcell) in Hrun.
    injection Hrun as <- _. exact Hcell.
  - rewrite (useWatermark_miss text option hooks w Hhit) in Hrun.
    destruct (createWatermarkImage P text (imageOption (mergeOption option)) w) as [[img|e] w''].
    + injection Hrun as <- _. reflexivity.
    + discriminate Hrun.
Qed.

(** The result of the pipeline depends on the world through the pixel ratio
    and the availability of a context only. *)
Lemma createWatermarkImage_result (text : string) (o : WatermarkImageOption) (w1 w2 : World) :
  pixelRatio w1 = pixelRatio w2 ->
  context2dAvailable w1 = context2dAvailable w2 ->
  fst (createWatermarkImage P text o w1) = fst (createWatermarkImage P text o w2).
Proof.
  intros Hratio Hctx. destruct (context2dAvailable w2) eqn:H2.
  - rewrite !createWatermarkImage_run by assumption. cbn [fst].
    unfold canvasSizeOf, finalPainted, finalState, textWidthOf, textHeightOf, measureFont.
    rewrite Hratio. reflexivity.
  - rewrite !createWatermarkImage_null by assumption. reflexivity.
Qed.

(** Two calls in a row return the same. *)
Lemma createWatermarkImage_twice (text : string) (o : WatermarkImageOption) (w : World) :
  fst (createWatermarkImage P text o (snd (createWatermarkImage P text o w)))
  = fst (createWatermarkImage P text o w).
Proof.
  destruct (createWatermarkImage_world text o w) as (_ & _ & Hratio & Hctx).
  apply createWatermarkImage_result; [|exact Hctx].
  unfold pixelRatio. rewrite Hratio. reflexivity.
Qed.

(** C8.  Two calls with the same text and options, in worlds of the same
    pixel ratio that both hand out a context or both do not, return the same
    completion: the same data URL, byte for byte. *)
Theorem render_is_deterministic (text : string) (o : WatermarkImageOption) (w1 w2 : World) :
  pixelRatio w1 = pixelRatio w2 ->
  context2dAvailable w1 = context2dAvailable w2 ->
  fst (createWatermarkImage P text o w1) = fst (createWatermarkImage P text o w2).
Proof.
  intros Hratio Hctx. destruct (context2dAvailable w1) eqn:H1; symmetry in Hctx.
  - rewrite (createWatermarkImage_run P text o w1 H1).
    rewrite (createWatermarkImage_run P text o w2 Hctx). cbn [fst].
    unfold canvasSizeOf, finalPainted, finalState, textWidthOf, textHeightOf, measureFont.
    rewrite Hratio. reflexivity.
  - rewrite (createWatermarkImage_null P text o w1 H1).
    rewrite (createWatermarkImage_null P text o w2 Hctx). reflexivity.
Qed.

(** C7.  After a render that returned, the next render returns the cached
    image and leaves the world alone when text, font size, angle and opacity
    are the same; it runs the pipeline again (one more canvas is created)
    exactly when one of the four differs; a new colour alone returns the
    cached image. *)
Theorem memo_recomputes_on_its_four_inputs
    (text1 text2 : string) (option1 option2 : option WatermarkOption)
    (hooks0 : Hooks) (w0 w1 : World) (r1 : Rendered) :
  useWatermark P text1 option1 hooks0 w0 = (Normal r1, w1) ->
  (memoDepsOf text2 option2 = memoDepsOf text1 option1 ->
   useWatermark P text2 option2 (hooksAfter r1) w1
   = (Normal (mkRendered (watermarkImage r1) (hooksAfter r1)
                (container (hooksAfter r1), watermarkImage r1, size (mergeOption option2))),
      w1))
  /\ (memoDepsOf text2 option2 <> memoDepsOf text1 option1 ->
      useWatermark P text2 option2 (hooksAfter r1) w1
      = match createWatermarkImage P text2 (imageOption (mergeOption option2)) w1 with
        | (Normal img, w2) =>
            (Normal (mkRendered img
                       (mkHooks (container (hooksAfter r1))
                                (Some (img, memoDepsOf text2 option2))
                                (effectCell (hooksAfter r1)))
                       (container (hooksAfter r1), img, size (mergeOption option2))), w2)
        | (Throw e, w2) => (Throw e, w2)
        end)
  /\ (nextRef (snd (useWatermark P text2 option2 (hooksAfter r1) w1)) = S (nextRef w1)
      <-> memoDepsOf text2 option2 <> memoDepsOf text1 option1)
  /\ (forall color' : string,
      useWatermark P text1 (Some (withColor (mergeOption option1) color')) (hooksAfter r1) w1
      = (Normal (mkRendered (watermarkImage r1) (hooksAfter r1)
                   (container (hooksAfter r1), watermarkImage r1, size (mergeOption option1))),
         w1)).
Proof.
  intros Hrun. pose proof (useWatermark_cell _ _ _ _ _ _ Hrun) as Hcell.
  assert (Hsame : memoDepsOf text2 option2 = memoDepsOf text1 option1 ->
                  useWatermark P text2 option2 (hooksAfter r1) w1
                  = (Normal (mkRendered (watermarkImage r1) (hooksAfter r1)
                               (container (hooksAfter r1), watermarkImage r1,
                                size (mergeOption option2))), w1)).
  { intros Hdeps. apply useWatermark_hit. rewrite Hdeps. exact Hcell. }
  assert (Hdiff : memoDepsOf text2 option2 <> memoDepsOf text1 option1 ->
                  memoHit (hooksAfter r1) (memoDepsOf text2 option2) = false).
  { intros Hdeps. unfold memoHit. rewrite Hcell. apply sameMemoDeps_false. congruence. }
  split; [exact Hsame|]. split; [|split].
  - intros Hdeps. apply useWatermark_miss, Hdiff, Hdeps.
  - split.
    + intros Hnext Hdeps. rewrite (Hsame Hdeps) in Hnext. cbn [snd] in Hnext. lia.
    + intros Hdeps. rewrite (useWatermark_miss _ _ _ _ (Hdiff Hdeps)).
      destruct (createWatermarkImage_world text2 (imageOption (mergeOption option2)) w1)
        as (Hnext & _).
      destruct (createWatermarkImage P text2 (imageOption (mergeOption option2)) w1)
        as [[img|e] w2]; exact Hnext.
  - intros color'.
    exact (useWatermark_hit text1 (Some (withColor (mergeOption option1) color'))
             (hooksAfter r1) (watermarkImage r1) w1 Hcell).
Qed.

(** C6, as the code has it.  With no 2D context the pipeline throws the
    [TypeError] of the first access to the missing context: no data URL is
    returned, no tile can be read back, no style is touched; and a render
    that has to compute the image throws the same error, its effect never
    runs and the styles of the page stay as they were. *)
Theorem missing_context_throws_TypeError (text : string) (o : WatermarkImageOption)
    (w : World) :
  context2dAvailable w = false ->
  (exists w' : World,
      createWatermarkImage P text o w = (Throw (TypeError "font"), w')
      /\ styles w' = styles w)
  /\ tileOf P text o w = None
  /\ (forall (option : option WatermarkOption) (hooks : Hooks),
      memoHit hooks (memoDepsOf text option) = false ->
      exists w' : World,
        renderAndCommit P text option hooks w
        = (Throw (TypeError "font"), w')
        /\ styles w' = styles w).
Proof.
  intros Hctx. split; [|split].
  - rewrite createWatermarkImage_null by exact Hctx. eexists. split; reflexivity.
  - apply tileOf_null, Hctx.
  - intros option hooks Hmiss.
    exists (withCanvases w (<[nextRef w := newCanvas]> (canvases w)) (S (nextRef w))).
    split; [|reflexivity].
    unfold renderAndCommit. apply run_bind_throw.
    rewrite (useWatermark_miss _ _ _ _ Hmiss).
    rewrite createWatermarkImage_null by exact Hctx. reflexivity.
Qed.

End Memo.

(** C8 on the sample browser, before and after a first call. *)
Lemma render_is_deterministic_witness :
  fst (createWatermarkImage samplePlatform "WATERMARK" (optionOfSize 14) sampleWorld)
  = fst (createWatermarkImage samplePlatform "WATERMARK" (optionOfSize 14)
           (snd (createWatermarkImage samplePlatform "WATERMARK" (optionOfSize 14) sampleWorld))).
Proof.
  apply (render_is_deterministic samplePlatform "WATERMARK" (optionOfSize 14)).
  - rewrite createWatermarkImage_run by reflexivity. reflexivity.
  - rewrite createWatermarkImage_run by reflexivity. reflexivity.
Defined.

(** C7 on the sample browser: a first render with the default options, then
    a render that changes the colour only. *)
Lemma memo_recomputes_on_its_four_inputs_witness :
  exists (r1 : Rendered) (w1 : World),
    useWatermark samplePlatform "WATERMARK" None mountHooks sampleWorld = (Normal r1, w1)
    /\ useWatermark samplePlatform "WATERMARK" (Some (withColor defaultOption "#ff0000"))
         (hooksAfter r1) w1
       = (Normal (mkRendered (watermarkImage r1) (hooksAfter r1)
                    (container (hooksAfter r1), watermarkImage r1, size defaultOption)), w1).
Proof.
  assert (Hrun : { rw : Rendered * World |
                   useWatermark samplePlatform "WATERMARK" None mountHooks sampleWorld
                   = (Normal (fst rw), snd rw) }).
  { eexists (_, _). rewrite useWatermark_miss by reflexivity.
    rewrite createWatermarkImage_run by reflexivity. cbn [fst snd]. reflexivity. }
  destruct Hrun as [[r1 w1] Hrun]. cbn [fst snd] in Hrun.
  exists r1, w1. split; [exact Hrun|].
  destruct (memo_recomputes_on_its_four_inputs samplePlatform "WATERMARK" "WATERMARK"
              None None mountHooks sampleWorld w1 r1 Hrun) as (_ & _ & _ & Hcolor).
  exact (Hcolor "#ff0000").
Defined.

(** C6 on the sample browser without a context. *)
Lemma missing_context_throws_TypeError_witness :
  tileOf samplePlatform "WATERMARK" (optionOfSize 14) headlessWorld = None.
Proof.
  destruct (missing_context_throws_TypeError samplePlatform "WATERMARK" (optionOfSize 14)
              headlessWorld eq_refl) as (_ & H & _).
  exact H.
Defined.

(** C6 as stated fails: what is thrown without a context is a [TypeError],
    not an error named [RenderUnavailable]. *)
Lemma missing_context_error_is_not_RenderUnavailable :
  exists (e : Exn) (w' : World),
    createWatermarkImage samplePlatform "WATERMARK" (optionOfSize 14) headlessWorld
    = (Throw e, w')
    /\ exnName e = "TypeError"
    /\ exnName e <> "RenderUnavailable".
Proof.
  rewrite createWatermarkImage_null by reflexivity.
  eexists _, _. split; [reflexivity|]. split; [reflexivity|]. discriminate.
Qed.

(** * Further properties of the code *)

(** ** The drawing: where the text lands *)

Section Drawing.

Context (P : Platform).

Lemma finalTransform_apply (ratio side angle x y : R) :
  ratio <> 0 ->
  applyMatrix (finalTransform ratio side angle) x y
  = (ratio * (x * cos (radians angle) - y * sin (radians angle)) + side / 2,
     ratio * (x * sin (radians angle) + y * cos (radians angle)) + side / 2).
Proof.
  intros Hr. unfold applyMatrix, finalTransform, scaled, multiply, identityMatrix,
    scaleMatrix, translateMatrix, rotateMatrix, radians. cbn.
  f_equal; field; exact Hr.
Qed.

Lemma finalTransform_determinant (ratio side angle : R) :
  determinant (finalTransform ratio side angle) = ratio ^ 2.
Proof.
  unfold determinant, finalTransform, scaled, multiply, identityMatrix,
    scaleMatrix, translateMatrix, rotateMatrix. cbn.
  pose proof (sin2_cos2 (angle * PI / 180)) as H. unfold Rsqr in H. nra.
Qed.

Lemma Rabs_le_bounds (a b : R) : Rabs a <= b -> - b <= a <= b.
Proof. unfold Rabs. destruct (Rcase_abs a); lra. Qed.

(** A rotated point stays within its distance from the origin. *)
Lemma rotation_bound (u v c s d : R) :
  c * c + s * s = 1 -> 0 <= d -> u * u + v * v <= d * d ->
  - d <= u * c - v * s <= d /\ - d <= u * s + v * c <= d.
Proof.
  intros Hcs Hd Huv.
  assert (H1 : (u * c - v * s) * (u * c - v * s) + (u * s + v * c) * (u * s + v * c)
               = u * u + v * v).
  { replace (u * u + v * v) with ((u * u + v * v) * (c * c + s * s))
      by (rewrite Hcs; ring). ring. }
  pose proof (Rle_0_sqr (u * c - v * s)) as Ha0.
  pose proof (Rle_0_sqr (u * s + v * c)) as Hb0.
  unfold Rsqr in Ha0, Hb0.
  assert (Ha : Rsqr (u * c - v * s) <= Rsqr d) by (unfold Rsqr; lra).
  assert (Hb : Rsqr (u * s + v * c) <= Rsqr d) by (unfold Rsqr; lra).
  repeat split.
  - apply Rsqr_neg_pos_le_0; assumption.
  - apply Rsqr_incr_0_var; assumption.
  - apply Rsqr_neg_pos_le_0; assumption.
  - apply Rsqr_incr_0_var; assumption.
Qed.

(** X1.  The painting of a call, end to end.  When a context is available
    the call returns the PNG encoding of the square canvas it leaves; exactly
    two operations were painted on it, a [clearRect] of the square under the
    scaling by the pixel ratio and then the [fillText] of the text at the
    origin, centred on both axes.  The text is drawn in the font of
    [fontSize] pixels when the context accepts that font string, and in the
    default font of 10 pixels otherwise (the font set for measuring did not
    survive the resizing); it is filled with [hexToRgba(color, opacity)] when
    the context accepts that string as a colour, and with the default
    [#000000] otherwise. *)
Theorem createWatermarkImage_paints_once (text : string) (o : WatermarkImageOption)
    (w : World) :
  context2dAvailable w = true ->
  exists c : HTMLCanvasElement,
    tileOf P text o w = Some c
    /\ height c = width c
    /\ fst (createWatermarkImage P text o w)
       = Normal (encodeDataURL P "image/png" (width c) (height c) (painted c))
    /\ painted c
       = [ClearRect (scaled (pixelRatio w)) 0 0 (width c) (height c);
          FillText (state c) text 0 0]
    /\ font (state c)
       = (if parsesAsFont P (Number_toString P (fontSize o) ++ "px sans-serif")%string
          then (Number_toString P (fontSize o) ++ "px sans-serif")%string
          else "10px sans-serif")
    /\ fillStyle (state c)
       = (if parsesAsColor P (hexToRgba P (color o) (opacity o))
          then hexToRgba P (color o) (opacity o)
          else "#000000")
    /\ textAlign (state c) = "center"
    /\ textBaseline (state c) = "middle".
Proof.
  intros Hctx. exists (finalCanvas P w text o (canvasSizeOf P w text o)).
  split; [apply tileOf_run, Hctx|].
  rewrite createWatermarkImage_run by exact Hctx.
  cbn [finalCanvas finalState width height painted state font fillStyle textAlign
       textBaseline fst].
  repeat split.
Qed.

(** X2.  The text is centred and only turned and scaled.  In the tile a call
    leaves, the point [(x, y)] of the drawing is painted at the centre of the
    square plus [(x, y)] turned by the angle (in degrees) and scaled by the
    pixel ratio; the origin, where the text is anchored, is the centre of the
    tile for every angle, and areas are scaled by the square of the ratio. *)
Theorem text_is_centred (text : string) (o : WatermarkImageOption) (w : World) :
  context2dAvailable w = true ->
  exists c : HTMLCanvasElement,
    tileOf P text o w = Some c
    /\ (forall x y : R,
        applyMatrix (transform (state c)) x y
        = (pixelRatio w * (x * cos (radians (angle o)) - y * sin (radians (angle o)))
             + width c / 2,
           pixelRatio w * (x * sin (radians (angle o)) + y * cos (radians (angle o)))
             + height c / 2))
    /\ applyMatrix (transform (state c)) 0 0 = (width c / 2, height c / 2)
    /\ determinant (transform (state c)) = pixelRatio w ^ 2.
Proof.
  intros Hctx. exists (finalCanvas P w text o (canvasSizeOf P w text o)).
  split; [apply tileOf_run, Hctx|].
  cbn [finalCanvas finalState state transform width height].
  pose proof (pixelRatio_nonzero w) as Hr.
  split; [|split].
  - intros x y. apply finalTransform_apply, Hr.
  - rewrite finalTransform_apply by exact Hr. f_equal; ring.
  - apply finalTransform_determinant.
Qed.

(** X3.  Nothing is clipped, at any angle.  At a positive pixel ratio, every
    point of the box centred at the origin whose width is the measured width
    divided by the pixel ratio and whose height is the font size (the box of
    the text in the units of the drawing) is painted inside the square of the
    tile. *)
Theorem text_box_fits_in_tile (text : string) (o : WatermarkImageOption) (w : World)
    (x y : R) :
  context2dAvailable w = true ->
  0 < pixelRatio w ->
  Rabs x <= textWidthOf P w text o / pixelRatio w / 2 ->
  Rabs y <= fontSize o / 2 ->
  exists c : HTMLCanvasElement,
    tileOf P text o w = Some c
    /\ 0 <= fst (applyMatrix (transform (state c)) x y) <= width c
    /\ 0 <= snd (applyMatrix (transform (state c)) x y) <= height c.
Proof.
  intros Hctx Hr Hx Hy. exists (finalCanvas P w text o (canvasSizeOf P w text o)).
  split; [apply tileOf_run, Hctx|].
  cbn [finalCanvas finalState state transform width height].
  rewrite finalTransform_apply by lra. cbn [fst snd].
  set (ratio := pixelRatio w) in *.
  set (tw := textWidthOf P w text o) in *.
  set (th := textHeightOf w o).
  set (d := Math_sqrt (tw ^ 2 + th ^ 2)).
  assert (Hside : d <= canvasSizeOf P w text o).
  { unfold canvasSizeOf. apply Math_ceil_bound. }
  assert (Hd0 : 0 <= d) by apply sqrt_pos.
  assert (Hdd : d * d = tw ^ 2 + th ^ 2).
  { unfold d, Math_sqrt. apply sqrt_sqrt. nra. }
  assert (Hu : Rabs (ratio * x) <= tw / 2).
  { rewrite Rabs_mult, (Rabs_pos_eq ratio) by lra.
    apply Rle_trans with (ratio * (tw / ratio / 2)).
    - apply Rmult_le_compat_l; lra.
    - apply Req_le. field. lra. }
  assert (Hv : Rabs (ratio * y) <= th / 2).
  { rewrite Rabs_mult, (Rabs_pos_eq ratio) by lra.
    apply Rle_trans with (ratio * (fontSize o / 2)).
    - apply Rmult_le_compat_l; lra.
    - apply Req_le. unfold th, textHeightOf. fold ratio. field. }
  apply Rabs_le_bounds in Hu, Hv.
  pose proof (sin2_cos2 (radians (angle o))) as Hcs. unfold Rsqr in Hcs.
  destruct (rotation_bound (ratio * x) (ratio * y) (cos (radians (angle o)))
              (sin (radians (angle o))) (d / 2)) as [H1 H2]; [lra | lra | nra |].
  split; lra.
Qed.

(** X4.  The side is at least the measured width and at least the height of the
    text, and less than their sum plus one. *)
Theorem tile_side_bounds (text : string) (o : WatermarkImageOption) (w : World) :
  context2dAvailable w = true ->
  exists s : R,
    tileSide P text o w = Some s
    /\ Rabs (textWidthOf P w text o) <= s
    /\ Rabs (textHeightOf w o) <= s
    /\ s < Rabs (textWidthOf P w text o) + Rabs (textHeightOf w o) + 1.
Proof.
  intros Hctx. exists (canvasSizeOf P w text o).
  split; [apply tileSide_run, Hctx|].
  destruct (canvasSizeOf_covers P w text o) as [Hw Hh].
  split; [exact Hw|]. split; [exact Hh|].
  unfold canvasSizeOf.
  set (tw := textWidthOf P w text o). set (th := textHeightOf w o).
  destruct (Math_ceil_bound (Math_sqrt (tw ^ 2 + th ^ 2))) as [Hlow _].
  assert (Hd : Math_sqrt (tw ^ 2 + th ^ 2) <= Rabs tw + Rabs th).
  { unfold Math_sqrt.
    rewrite <- (sqrt_square (Rabs tw + Rabs th))
      by (pose proof (Rabs_pos tw); pose proof (Rabs_pos th); lra).
    apply sqrt_le_1_alt.
    pose proof (Rabs_pos tw) as H1. pose proof (Rabs_pos th) as H2.
    assert (Rabs tw * Rabs tw = tw * tw).
    { rewrite <- Rabs_mult. apply Rabs_pos_eq. nra. }
    assert (Rabs th * Rabs th = th * th).
    { rewrite <- Rabs_mult. apply Rabs_pos_eq. nra. }
    nra. }
  lra.
Qed.

(** X6.  A browser that reports no pixel ratio, or zero, is served as one that
    reports 1. *)
Theorem missing_ratio_is_one (text : string) (o : WatermarkImageOption) (w : World) :
  devicePixelRatio w = None \/ devicePixelRatio w = Some 0 ->
  pixelRatio w = 1
  /\ fst (createWatermarkImage P text o w)
     = fst (createWatermarkImage P text o (withRatio w (Some 1))).
Proof.
  intros Hw.
  assert (H1 : pixelRatio w = 1).
  { unfold pixelRatio, orElse. destruct Hw as [-> | ->]; [reflexivity|].
    destruct (Req_dec_T 0 0); [reflexivity|contradiction]. }
  split; [exact H1|].
  apply createWatermarkImage_result; [|reflexivity].
  rewrite H1. unfold pixelRatio, orElse, withRatio. cbn.
  destruct (Req_dec_T 1 0); [lra|reflexivity].
Qed.

(** X7.  What a call leaves behind.  It takes exactly one new reference, for the
    canvas it created, whether it returns or throws; every canvas that was
    there is still there, unchanged; no style of the page, nor the pixel
    ratio, is touched; and references stay handed out in order. *)
Theorem createWatermarkImage_frame (text : string) (o : WatermarkImageOption) (w : World) :
  wellFormed w ->
  canvases w !! nextRef w = None
  /\ nextRef (snd (createWatermarkImage P text o w)) = S (nextRef w)
  /\ is_Some (canvases (snd (createWatermarkImage P text o w)) !! nextRef w)
  /\ (forall (r : nat) (c : HTMLCanvasElement),
      canvases w !! r = Some c ->
      canvases (snd (createWatermarkImage P text o w)) !! r = Some c)
  /\ styles (snd (createWatermarkImage P text o w)) = styles w
  /\ devicePixelRatio (snd (createWatermarkImage P text o w)) = devicePixelRatio w
  /\ wellFormed (snd (createWatermarkImage P text o w)).
Proof.
  intros Hwf.
  assert (Hfresh : canvases w !! nextRef w = None) by (apply Hwf; lia).
  split; [exact Hfresh|].
  assert (Hcs : exists c0 : HTMLCanvasElement,
             snd (createWatermarkImage P text o w)
             = withCanvases w (<[nextRef w := c0]> (canvases w)) (S (nextRef w))).
  { destruct (context2dAvailable w) eqn:Hctx.
    - rewrite createWatermarkImage_run by exact Hctx. eexists. reflexivity.
    - rewrite createWatermarkImage_null by exact Hctx. eexists. reflexivity. }
  destruct Hcs as [c0 ->]. cbn [withCanvases nextRef canvases styles devicePixelRatio].
  split; [reflexivity|]. split; [rewrite lookup_insert_eq; eauto|].
  split; [|split; [reflexivity|split; [reflexivity|]]].
  - intros r c Hr. rewrite lookup_insert_ne; [exact Hr|]. congruence.
  - intros r Hr. cbn [withCanvases nextRef canvases] in *.
    rewrite lookup_insert_ne by lia. apply Hwf. lia.
Qed.

End Drawing.

(** The painting on the sample browser, at the colour [bad-color]: the
    string of [hexToRgba] holds a [NaN], is not accepted, and the text is
    filled with the default black. *)
Lemma createWatermarkImage_paints_once_witness :
  exists c : HTMLCanvasElement,
    tileOf samplePlatform "WATERMARK" (mkImageOption 14 (-45) 1 "bad-color") sampleWorld
    = Some c
    /\ fillStyle (state c) = "#000000"
    /\ textAlign (state c) = "center".
Proof.
  destruct (createWatermarkImage_paints_once samplePlatform "WATERMARK"
              (mkImageOption 14 (-45) 1 "bad-color") sampleWorld eq_refl)
    as (c & Htile & _ & _ & _ & _ & Hfill & Halign & _).
  exists c. split; [exact Htile|]. split; [|exact Halign].
  rewrite Hfill. cbn [color opacity]. rewrite hexToRgba_unfold. unfold rgbaTemplate.
  rewrite (Number_toString_integer samplePlatform 1) by (rewrite Rabs_R1; lra).
  reflexivity.
Defined.

(** The centring on the sample browser. *)
Lemma text_is_centred_witness :
  exists c : HTMLCanvasElement,
    tileOf samplePlatform "WATERMARK" (optionOfSize 14) sampleWorld = Some c
    /\ applyMatrix (transform (state c)) 0 0 = (width c / 2, height c / 2).
Proof.
  destruct (text_is_centred samplePlatform "WATERMARK" (optionOfSize 14) sampleWorld eq_refl)
    as (c & Htile & _ & Hcentre & _).
  exists c. split; assumption.
Defined.

Lemma textWidthOf_sample_WATERMARK :
  textWidthOf samplePlatform sampleWorld "WATERMARK" (optionOfSize 14) = 72.
Proof. unfold textWidthOf, samplePlatform. cbn. lra. Qed.

(** The corner [(36, 7)] of the box of WATERMARK, 72 wide and 14 high. *)
Lemma text_box_fits_in_tile_witness :
  exists c : HTMLCanvasElement,
    tileOf samplePlatform "WATERMARK" (optionOfSize 14) sampleWorld = Some c
    /\ 0 <= fst (applyMatrix (transform (state c)) 36 7) <= width c
    /\ 0 <= snd (applyMatrix (transform (state c)) 36 7) <= height c.
Proof.
  apply (text_box_fits_in_tile samplePlatform "WATERMARK" (optionOfSize 14) sampleWorld 36 7).
  - reflexivity.
  - rewrite pixelRatio_sampleWorld. lra.
  - rewrite textWidthOf_sample_WATERMARK, pixelRatio_sampleWorld.
    rewrite Rabs_pos_eq by lra. lra.
  - cbn [optionOfSize fontSize]. rewrite Rabs_pos_eq by lra. lra.
Defined.

(** The bounds on the sample browser. *)
Lemma tile_side_bounds_witness :
  exists s : R,
    tileSide samplePlatform "WATERMARK" (optionOfSize 14) sampleWorld = Some s
    /\ Rabs (textWidthOf samplePlatform sampleWorld "WATERMARK" (optionOfSize 14)) <= s.
Proof.
  destruct (tile_side_bounds samplePlatform "WATERMARK" (optionOfSize 14) sampleWorld eq_refl)
    as (s & Hs & Hw & _).
  exists s. split; assumption.
Defined.

(** A browser that does not define the pixel ratio. *)
Lemma missing_ratio_is_one_witness : pixelRatio (withRatio sampleWorld None) = 1.
Proof.
  destruct (missing_ratio_is_one samplePlatform "" (optionOfSize 14)
              (withRatio sampleWorld None) (or_introl eq_refl)) as [H _].
  exact H.
Defined.

Lemma wellFormed_sampleWorld : wellFormed sampleWorld.
Proof. intros r _. apply lookup_empty. Qed.

(** The first call in the sample browser. *)
Lemma createWatermarkImage_frame_witness :
  nextRef (snd (createWatermarkImage samplePlatform "" (optionOfSize 14) sampleWorld)) = 1%nat.
Proof.
  destruct (createWatermarkImage_frame samplePlatform "" (optionOfSize 14) sampleWorld
              wellFormed_sampleWorld) as (_ & H & _).
  exact H.
Defined.

(** ** The colour parser on strings that are not [#RRGGBB] *)

Section ColorEdges.

Context (P : Platform).

Lemma In_allAscii (c : ascii) : In c allAscii.
Proof.
  unfold allAscii. rewrite <- (ascii_nat_embedding c).
  apply in_map, in_seq. pose proof (nat_ascii_bounded c). lia.
Qed.

Lemma substring_length_le (n m : nat) (s : string) :
  (String.length (substring n m s) <= m)%nat.
Proof.
  revert m s. induction n as [|n IHn].
  - induction m as [|m IHm]; intros [|c s]; cbn; try lia.
    specialize (IHm s). lia.
  - intros m [|c s]; cbn; [lia|apply IHn].
Qed.

(** Each of the three slices has two characters at most. *)
Lemma slice_two (hex : string) (a : Z) :
  (0 <= a)%Z -> (String.length (slice hex a (a + 2)) <= 2)%nat.
Proof.
  intros Ha. unfold slice.
  destruct (Z.ltb_spec a 0) as [Hneg|_]; [lia|].
  destruct (Z.ltb_spec (a + 2) 0) as [Hneg|_]; [lia|].
  eapply Nat.le_trans; [apply substring_length_le|]. lia.
Qed.

Lemma parseInt_pairs_in_range :
  forallb (fun c1 =>
    forallb (fun c2 => channelInRange (parseInt (String c1 (String c2 "")) 16)) allAscii)
    allAscii = true.
Proof. vm_compute. reflexivity. Qed.

Lemma parseInt_singles_in_range :
  forallb (fun c => channelInRange (parseInt (String c "") 16)) allAscii = true.
Proof. vm_compute. reflexivity. Qed.

(** Two characters at most read as [NaN] or as an integer from -15 to 255. *)
Lemma parseInt_short_in_range (s : string) :
  (String.length s <= 2)%nat -> channelInRange (parseInt s 16) = true.
Proof.
  destruct s as [|c1 [|c2 [|c3 s]]]; cbn [String.length]; intros Hlen.
  - reflexivity.
  - pose proof parseInt_singles_in_range as H. rewrite forallb_forall in H.
    apply (H c1), In_allAscii.
  - pose proof parseInt_pairs_in_range as H. rewrite forallb_forall in H.
    specialize (H c1 (In_allAscii c1)). cbv beta in H. rewrite forallb_forall in H.
    apply (H c2), In_allAscii.
  - lia.
Qed.

(** X8.  Whatever the string, a channel is [NaN] or an integer from -15 to 255:
    a malformed colour can give a negative channel, never one above 255. *)
Theorem hexToRgba_channels_in_range (hex : string) :
  exists r g b : IntegerOrNaN,
    hexToRgba_channels hex = (r, g, b)
    /\ channelInRange r = true /\ channelInRange g = true /\ channelInRange b = true.
Proof.
  exists (parseInt (slice hex 1 3) 16), (parseInt (slice hex 3 5) 16),
    (parseInt (slice hex 5 7) 16).
  split; [reflexivity|].
  repeat split; apply parseInt_short_in_range.
  - apply (slice_two hex 1). lia.
  - apply (slice_two hex 3). lia.
  - apply (slice_two hex 5). lia.
Qed.

Lemma parseInt_hex_single (c : ascii) :
  isHexDigit c = true -> parseInt (String c "") 16 = Int (hexValue c).
Proof.
  intros Hc. apply isHexDigit_In in Hc. cbn in Hc.
  repeat (destruct Hc as [<-|Hc]); try contradiction; reflexivity.
Qed.

(** X9.  The short notation [#RGB] is not expanded: red is read from the first two
    digits, green from the third alone, and blue is [NaN]. *)
Theorem hexToRgba_short_notation (c1 c2 c3 : ascii) :
  isHexDigit c1 = true -> isHexDigit c2 = true -> isHexDigit c3 = true ->
  hexToRgba_channels (String "#" (String c1 (String c2 (String c3 ""))))
  = (Int (pairValue c1 c2), Int (hexValue c3), NaN).
Proof.
  intros H1 H2 H3. unfold hexToRgba_channels.
  change (slice (String "#" (String c1 (String c2 (String c3 "")))) 1 3)
    with (String c1 (String c2 "")).
  change (slice (String "#" (String c1 (String c2 (String c3 "")))) 3 5)
    with (String c3 "").
  change (slice (String "#" (String c1 (String c2 (String c3 "")))) 5 7) with "".
  rewrite parseInt_hex_pair, parseInt_hex_single by assumption. reflexivity.
Qed.

(** X10.  The empty string and the strings of one character give three [NaN]. *)
Theorem hexToRgba_too_short (hex : string) (alpha : R) :
  (String.length hex <= 1)%nat ->
  hexToRgba_channels hex = (NaN, NaN, NaN)
  /\ hexToRgba P hex alpha
     = ("rgba(NaN, NaN, NaN, " ++ Number_toString P alpha ++ ")")%string.
Proof.
  intros Hlen. destruct hex as [|c [|c' hex]].
  - split; reflexivity.
  - split; reflexivity.
  - cbn in Hlen. lia.
Qed.

Lemma parseInt_digit_then_other :
  forallb (fun c1 =>
    forallb (fun c2 =>
      implb (isHexDigit c1 && negb (isHexDigit c2)
             && negb (startsWith0x (String c1 (String c2 ""))))
            (match parseInt (String c1 (String c2 "")) 16 with
             | Int z => (z =? hexValue c1)%Z
             | NaN => false
             end)) allAscii) allAscii = true.
Proof. vm_compute. reflexivity. Qed.

(** X11.  A digit followed by a character that is no digit reads as the digit
    alone: [#1g2h3i] is accepted and gives 1, 2 and 3.  The pair [0x] is the
    exception (it is a prefix, and reads as [NaN]). *)
Theorem hexToRgba_stops_at_non_digit (d1 x1 d2 x2 d3 x3 : ascii) :
  isHexDigit d1 = true -> isHexDigit x1 = false ->
  isHexDigit d2 = true -> isHexDigit x2 = false ->
  isHexDigit d3 = true -> isHexDigit x3 = false ->
  startsWith0x (String d1 (String x1 "")) = false ->
  startsWith0x (String d2 (String x2 "")) = false ->
  startsWith0x (String d3 (String x3 "")) = false ->
  hexToRgba_channels (hexColor d1 x1 d2 x2 d3 x3)
  = (Int (hexValue d1), Int (hexValue d2), Int (hexValue d3)).
Proof.
  intros Hd1 Hx1 Hd2 Hx2 Hd3 Hx3 Hp1 Hp2 Hp3.
  assert (Hpair : forall d x : ascii,
             isHexDigit d = true -> isHexDigit x = false ->
             startsWith0x (String d (String x "")) = false ->
             parseInt (String d (String x "")) 16 = Int (hexValue d)).
  { intros d x Hd Hx Hp.
    pose proof parseInt_digit_then_other as H. rewrite forallb_forall in H.
    specialize (H d (In_allAscii d)). cbv beta in H. rewrite forallb_forall in H.
    specialize (H x (In_allAscii x)). cbv beta in H.
    rewrite Hd, Hx, Hp in H. cbn [andb negb implb] in H.
    destruct (parseInt (String d (String x "")) 16) as [|z]; [discriminate H|].
    apply Z.eqb_eq in H. subst z. reflexivity. }
  unfold hexToRgba_channels.
  change (slice (hexColor d1 x1 d2 x2 d3 x3) 1 3) with (String d1 (String x1 "")).
  change (slice (hexColor d1 x1 d2 x2 d3 x3) 3 5) with (String d2 (String x2 "")).
  change (slice (hexColor d1 x1 d2 x2 d3 x3) 5 7) with (String d3 (String x3 "")).
  rewrite !Hpair by assumption. reflexivity.
Qed.

(** X12.  Digits are read without regard to case: two colours whose digits have the
    same values, place by place, give the same string. *)
Theorem hexToRgba_ignores_case (r1 r2 g1 g2 b1 b2 r1' r2' g1' g2' b1' b2' : ascii)
    (alpha : R) :
  isHexDigit r1 = true -> isHexDigit r2 = true -> isHexDigit g1 = true ->
  isHexDigit g2 = true -> isHexDigit b1 = true -> isHexDigit b2 = true ->
  isHexDigit r1' = true -> isHexDigit r2' = true -> isHexDigit g1' = true ->
  isHexDigit g2' = true -> isHexDigit b1' = true -> isHexDigit b2' = true ->
  hexValue r1 = hexValue r1' -> hexValue r2 = hexValue r2' ->
  hexValue g1 = hexValue g1' -> hexValue g2 = hexValue g2' ->
  hexValue b1 = hexValue b1' -> hexValue b2 = hexValue b2' ->
  hexToRgba P (hexColor r1 r2 g1 g2 b1 b2) alpha
  = hexToRgba P (hexColor r1' r2' g1' g2' b1' b2') alpha.
Proof.
  intros. rewrite !hexToRgba_unfold.
  change (slice (hexColor r1 r2 g1 g2 b1 b2) 1 3) with (String r1 (String r2 "")).
  change (slice (hexColor r1 r2 g1 g2 b1 b2) 3 5) with (String g1 (String g2 "")).
  change (slice (hexColor r1 r2 g1 g2 b1 b2) 5 7) with (String b1 (String b2 "")).
  change (slice (hexColor r1' r2' g1' g2' b1' b2') 1 3) with (String r1' (String r2' "")).
  change (slice (hexColor r1' r2' g1' g2' b1' b2') 3 5) with (String g1' (String g2' "")).
  change (slice (hexColor r1' r2' g1' g2' b1' b2') 5 7) with (String b1' (String b2' "")).
  rewrite !parseInt_hex_pair by assumption. unfold pairValue. congruence.
Qed.

Lemma toHexDigit_spec (n : Z) :
  (0 <= n < 16)%Z -> isHexDigit (toHexDigit n) = true /\ hexValue (toHexDigit n) = n.
Proof.
  intros Hn. rewrite <- (Z2Nat.id n) at 3 by lia. unfold toHexDigit.
  assert (Hlt : (Z.to_nat n < 16)%nat) by lia.
  destruct (Z.to_nat n) as [|[|[|[|[|[|[|[|[|[|[|[|[|[|[|[|k]]]]]]]]]]]]]]]];
    try (split; reflexivity). lia.
Qed.

Lemma parseInt_toHexPair (z : Z) :
  (0 <= z <= 255)%Z -> parseInt (toHexPair z) 16 = Int z.
Proof.
  intros Hz. unfold toHexPair.
  assert (Hhi : (0 <= z / 16 < 16)%Z).
  { split; [apply Z.div_pos; lia | apply Z.div_lt_upper_bound; lia]. }
  assert (Hlo : (0 <= z mod 16 < 16)%Z) by (apply Z.mod_pos_bound; lia).
  destruct (toHexDigit_spec _ Hhi) as [H1 H2]. destruct (toHexDigit_spec _ Hlo) as [H3 H4].
  rewrite parseInt_hex_pair by assumption. unfold pairValue. rewrite H2, H4.
  f_equal. pose proof (Z.div_mod z 16). lia.
Qed.

(** X13.  Every colour can be written: for three bytes there are six digits whose
    colour string is read back as these bytes. *)
Theorem hexToRgba_reaches_every_byte (r g b : Z) :
  (0 <= r <= 255)%Z -> (0 <= g <= 255)%Z -> (0 <= b <= 255)%Z ->
  exists r1 r2 g1 g2 b1 b2 : ascii,
    isHexDigit r1 = true /\ isHexDigit r2 = true /\ isHexDigit g1 = true
    /\ isHexDigit g2 = true /\ isHexDigit b1 = true /\ isHexDigit b2 = true
    /\ hexToRgba_channels (hexColor r1 r2 g1 g2 b1 b2) = (Int r, Int g, Int b).
Proof.
  intros Hr Hg Hb.
  assert (Hd : forall z : Z, (0 <= z <= 255)%Z ->
             isHexDigit (toHexDigit (z / 16)) = true
             /\ isHexDigit (toHexDigit (z mod 16)) = true).
  { intros z Hz. split; apply toHexDigit_spec.
    - split; [apply Z.div_pos; lia | apply Z.div_lt_upper_bound; lia].
    - apply Z.mod_pos_bound. lia. }
  exists (toHexDigit (r / 16)), (toHexDigit (r mod 16)),
    (toHexDigit (g / 16)), (toHexDigit (g mod 16)),
    (toHexDigit (b / 16)), (toHexDigit (b mod 16)).
  destruct (Hd r Hr) as [? ?]. destruct (Hd g Hg) as [? ?]. destruct (Hd b Hb) as [? ?].
  repeat (split; [assumption|]).
  unfold hexToRgba_channels.
  change (slice (hexColor (toHexDigit (r / 16)) (toHexDigit (r mod 16))
                   (toHexDigit (g / 16)) (toHexDigit (g mod 16))
                   (toHexDigit (b / 16)) (toHexDigit (b mod 16))) 1 3)
    with (toHexPair r).
  change (slice (hexColor (toHexDigit (r / 16)) (toHexDigit (r mod 16))
                   (toHexDigit (g / 16)) (toHexDigit (g mod 16))
                   (toHexDigit (b / 16)) (toHexDigit (b mod 16))) 3 5)
    with (toHexPair g).
  change (slice (hexColor (toHexDigit (r / 16)) (toHexDigit (r mod 16))
                   (toHexDigit (g / 16)) (toHexDigit (g mod 16))
                   (toHexDigit (b / 16)) (toHexDigit (b mod 16))) 5 7)
    with (toHexPair b).
  rewrite !parseInt_toHexPair by assumption. reflexivity.
Qed.

End ColorEdges.

(** The short notation on [#fff]. *)
Lemma hexToRgba_short_notation_witness :
  hexToRgba_channels "#fff" = (Int 255, Int 15, NaN).
Proof.
  exact (hexToRgba_short_notation "f" "f" "f" eq_refl eq_refl eq_refl).
Defined.

(** The empty colour. *)
Lemma hexToRgba_too_short_witness : hexToRgba_channels "" = (NaN, NaN, NaN).
Proof.
  destruct (hexToRgba_too_short samplePlatform "" 1) as [H _].
  - cbn. lia.
  - exact H.
Defined.

(** The colour [#1g2h3i]. *)
Lemma hexToRgba_stops_at_non_digit_witness :
  hexToRgba_channels "#1g2h3i" = (Int 1, Int 2, Int 3).
Proof.
  exact (hexToRgba_stops_at_non_digit "1" "g" "2" "h" "3" "i"
           eq_refl eq_refl eq_refl eq_refl eq_refl eq_refl eq_refl eq_refl eq_refl).
Defined.

(** [#ABCDEF] and [#abcdef]. *)
Lemma hexToRgba_ignores_case_witness :
  hexToRgba samplePlatform "#ABCDEF" 1 = hexToRgba samplePlatform "#abcdef" 1.
Proof.
  exact (hexToRgba_ignores_case samplePlatform "A" "B" "C" "D" "E" "F" "a" "b" "c" "d" "e" "f" 1
           eq_refl eq_refl eq_refl eq_refl eq_refl eq_refl
           eq_refl eq_refl eq_refl eq_refl eq_refl eq_refl
           eq_refl eq_refl eq_refl eq_refl eq_refl eq_refl).
Defined.

(** The bytes 255, 136 and 0. *)
Lemma hexToRgba_reaches_every_byte_witness :
  exists r1 r2 g1 g2 b1 b2 : ascii,
    hexToRgba_channels (hexColor r1 r2 g1 g2 b1 b2) = (Int 255, Int 136, Int 0).
Proof.
  destruct (hexToRgba_reaches_every_byte 255 136 0 ltac:(lia) ltac:(lia) ltac:(lia))
    as (r1 & r2 & g1 & g2 & b1 & b2 & _ & _ & _ & _ & _ & _ & H).
  exists r1, r2, g1, g2, b1, b2. exact H.
Defined.

(** ** The binding: [ref], the effect and the renders *)

Section Binding.

Context (P : Platform).

Lemma readStyle_run (el : nat) (st : CSSStyle) (w : World) :
  styles w !! el = Some st -> readStyle el w = (Normal st, w).
Proof. intros H. unfold readStyle. rewrite H. reflexivity. Qed.

Lemma ref_run (el : nat) (hooks : Hooks) (st : CSSStyle) (w : World) :
  styles w !! el = Some st ->
  ref (Some el) hooks w
  = (Normal (mkHooks (Some el) (memoCell hooks) (effectCell hooks)),
     withStyles w
       (<[el := mkStyle "repeat" "none" "9999" (backgroundImage st) (backgroundSize st)]>
          (styles w))).
Proof.
  intros H. unfold ref. rewrite (run_bind _ _ _ _ _ (readStyle_run el st w H)).
  reflexivity.
Qed.

Lemma watermarkEffect_run (el : nat) (image size : string) (st : CSSStyle) (w : World) :
  styles w !! el = Some st ->
  watermarkEffect (Some el, image, size) w
  = (Normal tt,
     withStyles w
       (<[el := mkStyle (backgroundRepeat st) (pointerEvents st) (zIndex st)
                        ("url(" ++ image ++ ")")%string size]> (styles w))).
Proof.
  intros H. unfold watermarkEffect. rewrite (run_bind _ _ _ _ _ (readStyle_run el st w H)).
  reflexivity.
Qed.

Lemma withStyles_twice (w : World) (s1 s2 : gmap nat CSSStyle) :
  withStyles (withStyles w s1) s2 = withStyles w s2.
Proof. reflexivity. Qed.

Lemma sameEffectDeps_refl (d : EffectDeps) : sameEffectDeps d d = true.
Proof.
  destruct d as [[c i] s]. unfold sameEffectDeps.
  rewrite !String.eqb_refl. destruct c as [r|]; cbn; [rewrite Nat.eqb_refl|]; reflexivity.
Qed.

(** What a render that returned hands back. *)
Lemma useWatermark_normal (text : string) (option : option WatermarkOption) (hooks : Hooks)
    (w w' : World) (r : Rendered) :
  useWatermark P text option hooks w = (Normal r, w') ->
  r = mkRendered (watermarkImage r)
        (mkHooks (container hooks) (Some (watermarkImage r, memoDepsOf text option))
                 (effectCell hooks))
        (container hooks, watermarkImage r, size (mergeOption option)).
Proof.
  intros Hrun. destruct (memoHit hooks (memoDepsOf text option)) eqn:Hhit.
  - unfold memoHit in Hhit. destruct (memoCell hooks) as [[value prev]|] eqn:Hcell;
      [|discriminate Hhit].
    apply sameMemoDeps_true in Hhit. subst prev.
    rewrite (useWatermark_hit P text option hooks value w Hcell) in Hrun.
    injection Hrun as <- _. cbn. rewrite <- Hcell, hooks_eta. reflexivity.
  - rewrite (useWatermark_miss P text option hooks w Hhit) in Hrun.
    destruct (createWatermarkImage P text (imageOption (mergeOption option)) w) as [[img|e] w''].
    + injection Hrun as <- _. reflexivity.
    + discriminate Hrun.
Qed.

(** With a context every render returns, in a world that still has one. *)
Lemma useWatermark_returns (text : string) (option : option WatermarkOption) (hooks : Hooks)
    (w : World) :
  context2dAvailable w = true ->
  exists (r : Rendered) (w' : World),
    useWatermark P text option hooks w = (Normal r, w') /\ context2dAvailable w' = true.
Proof.
  intros Hctx. destruct (memoHit hooks (memoDepsOf text option)) eqn:Hhit.
  - unfold memoHit in Hhit. destruct (memoCell hooks) as [[value prev]|] eqn:Hcell;
      [|discriminate Hhit].
    apply sameMemoDeps_true in Hhit. subst prev.
    rewrite (useWatermark_hit P text option hooks value w Hcell). eauto.
  - rewrite (useWatermark_miss P text option hooks w Hhit).
    rewrite createWatermarkImage_run by exact Hctx. eauto.
Qed.

(** The commit that follows a render that returned. *)
Lemma renderAndCommit_run (text : string) (option : option WatermarkOption) (hooks : Hooks)
    (w w1 : World) (image : string) :
  useWatermark P text option hooks w
  = (Normal (mkRendered image
               (mkHooks (container hooks) (Some (image, memoDepsOf text option))
                        (effectCell hooks))
               (container hooks, image, size (mergeOption option))), w1) ->
  renderAndCommit P text option hooks w
  = bind (if match effectCell hooks with
             | Some prev =>
                 negb (sameEffectDeps prev (container hooks, image, size (mergeOption option)))
             | None => true
             end
          then watermarkEffect (container hooks, image, size (mergeOption option))
          else ret tt)
         (fun _ => ret (mkHooks (container hooks) (Some (image, memoDepsOf text option))
                                (Some (container hooks, image, size (mergeOption option)))))
         w1.
Proof.
  intros Hrun. unfold renderAndCommit. rewrite (run_bind _ _ _ _ _ Hrun). reflexivity.
Qed.

(** The hooks a render and commit that returned leave. *)
Lemma renderAndCommit_normal (text : string) (option : option WatermarkOption) (hooks h1 : Hooks)
    (w w1 : World) :
  renderAndCommit P text option hooks w = (Normal h1, w1) ->
  exists image : string,
    h1 = mkHooks (container hooks) (Some (image, memoDepsOf text option))
                 (Some (container hooks, image, size (mergeOption option))).
Proof.
  intros Hrun.
  destruct (useWatermark P text option hooks w) as [[r|e] wr] eqn:Huse.
  - pose proof (useWatermark_normal _ _ _ _ _ _ Huse) as Hr. rewrite Hr in Huse.
    rewrite (renderAndCommit_run _ _ _ _ _ _ Huse) in Hrun.
    exists (watermarkImage r). unfold bind, ret in Hrun.
    destruct ((if match effectCell hooks with
                  | Some prev =>
                      negb (sameEffectDeps prev
                              (container hooks, watermarkImage r, size (mergeOption option)))
                  | None => true
                  end
               then watermarkEffect
                      (container hooks, watermarkImage r, size (mergeOption option))
               else fun w0 : World => (Normal tt, w0)) wr) as [[u|e] w2].
    + injection Hrun as <- _. reflexivity.
    + discriminate Hrun.
  - unfold renderAndCommit in Hrun. rewrite (run_bind_throw _ _ _ _ _ Huse) in Hrun.
    discriminate Hrun.
Qed.

(** A first render and commit of a hook whose container is already known. *)
Lemma renderAndCommit_first (text : string) (option : option WatermarkOption) (el : nat)
    (st : CSSStyle) (w : World) :
  context2dAvailable w = true ->
  styles w !! el = Some st ->
  exists (h1 : Hooks) (w1 : World) (st1 : CSSStyle),
    renderAndCommit P text option (mkHooks (Some el) None None) w = (Normal h1, w1)
    /\ container h1 = Some el
    /\ styles w1 !! el = Some st1.
Proof.
  intros Hctx Hst.
  pose proof (createWatermarkImage_run P text (imageOption (mergeOption option)) w Hctx)
    as Hpipe.
  assert (Huse : exists (image : string) (w1 : World),
             useWatermark P text option (mkHooks (Some el) None None) w
             = (Normal (mkRendered image
                          (mkHooks (Some el) (Some (image, memoDepsOf text option)) None)
                          (Some el, image, size (mergeOption option))), w1)
             /\ styles w1 = styles w).
  { rewrite useWatermark_miss by reflexivity. rewrite Hpipe. eexists _, _.
    split; reflexivity. }
  destruct Huse as (image & w1 & Huse & Hstyles).
  pose proof (renderAndCommit_run text option (mkHooks (Some el) None None) w w1 image Huse)
    as Hrc.
  cbn [container effectCell memoCell] in Hrc.
  assert (Hst1 : styles w1 !! el = Some st) by (rewrite Hstyles; exact Hst).
  rewrite (run_bind _ _ _ _ _
             (watermarkEffect_run el image (size (mergeOption option)) st w1 Hst1)) in Hrc.
  eexists _, _, _. split; [exact Hrc|]. split; [reflexivity|].
  cbn [withStyles styles]. apply lookup_insert_eq.
Qed.

(** X14.  The [ref] callback.  Given an element it writes the three properties
    repeat, none and 9999, keeps the background image and size the element
    had, touches no other element and no canvas, and records the element as
    the container; given it again it changes nothing more; given no node it
    does nothing. *)
Theorem ref_attaches_container (el : nat) (hooks : Hooks) (st : CSSStyle) (w : World) :
  styles w !! el = Some st ->
  exists (hooks' : Hooks) (w' : World),
    ref (Some el) hooks w = (Normal hooks', w')
    /\ container hooks' = Some el
    /\ memoCell hooks' = memoCell hooks
    /\ effectCell hooks' = effectCell hooks
    /\ styles w' !! el
       = Some (mkStyle "repeat" "none" "9999" (backgroundImage st) (backgroundSize st))
    /\ (forall el' : nat, el' <> el -> styles w' !! el' = styles w !! el')
    /\ canvases w' = canvases w
    /\ nextRef w' = nextRef w
    /\ ref (Some el) hooks' w' = (Normal hooks', w')
    /\ ref None hooks w = (Normal hooks, w).
Proof.
  intros Hst. eexists _, _. split; [apply (ref_run el hooks st w Hst)|].
  cbn [container memoCell effectCell withStyles styles canvases nextRef].
  repeat split.
  - apply lookup_insert_eq.
  - intros el' Hne. apply lookup_insert_ne. congruence.
  - erewrite ref_run by (cbn [withStyles styles]; apply lookup_insert_eq).
    cbn [memoCell effectCell backgroundImage backgroundSize].
    rewrite withStyles_twice. cbn [withStyles styles]. rewrite insert_insert_eq.
    reflexivity.
Qed.

(** X15.  The effect.  With a container it writes the background image
    [url(image)] and the background size, keeps the three other properties,
    and touches no other element and no canvas; with no container it does
    nothing. *)
Theorem effect_sets_background (el : nat) (image size : string) (st : CSSStyle) (w : World) :
  styles w !! el = Some st ->
  exists w' : World,
    watermarkEffect (Some el, image, size) w = (Normal tt, w')
    /\ styles w' !! el
       = Some (mkStyle (backgroundRepeat st) (pointerEvents st) (zIndex st)
                       ("url(" ++ image ++ ")")%string size)
    /\ (forall el' : nat, el' <> el -> styles w' !! el' = styles w !! el')
    /\ canvases w' = canvases w
    /\ nextRef w' = nextRef w
    /\ watermarkEffect (None, image, size) w = (Normal tt, w).
Proof.
  intros Hst. eexists. split; [apply (watermarkEffect_run el image size st w Hst)|].
  cbn [withStyles styles canvases nextRef]. repeat split.
  - apply lookup_insert_eq.
  - intros el' Hne. apply lookup_insert_ne. congruence.
Qed.

(** X16.  [ref] and the effect write different properties: in either order they
    leave the same world, in which the container has the full style of a
    watermark whatever style it had. *)
Theorem ref_and_effect_commute (el : nat) (hooks : Hooks) (image size : string)
    (st : CSSStyle) (w : World) :
  styles w !! el = Some st ->
  snd (bind (ref (Some el) hooks) (fun _ => watermarkEffect (Some el, image, size)) w)
  = snd (bind (watermarkEffect (Some el, image, size)) (fun _ => ref (Some el) hooks) w)
  /\ styles (snd (bind (ref (Some el) hooks)
                    (fun _ => watermarkEffect (Some el, image, size)) w)) !! el
     = Some (watermarkStyle image size).
Proof.
  intros Hst.
  rewrite (run_bind _ _ _ _ _ (ref_run el hooks st w Hst)).
  rewrite (run_bind _ _ _ _ _ (watermarkEffect_run el image size st w Hst)).
  erewrite watermarkEffect_run by (cbn [withStyles styles]; apply lookup_insert_eq).
  erewrite ref_run by (cbn [withStyles styles]; apply lookup_insert_eq).
  cbn [snd withStyles styles devicePixelRatio context2dAvailable canvases nextRef
       backgroundRepeat pointerEvents zIndex backgroundImage backgroundSize].
  rewrite !insert_insert_eq. split; [reflexivity|]. apply lookup_insert_eq.
Qed.

(** X17.  From mounting to the watermark.  With a context, a first render and
    commit, the attaching of the container by [ref] and a second render and
    commit all return; the pipeline ran once (one canvas was created); and at
    the end the container carries the full style: repeat, no pointer events,
    z-index 9999, the data URL of the tile as background image and the size
    of the options; no other element was touched. *)
Theorem mount_attach_render (text : string) (option : option WatermarkOption) (el : nat)
    (st : CSSStyle) (w : World) :
  context2dAvailable w = true ->
  styles w !! el = Some st ->
  exists (url : string) (h1 h2 h3 : Hooks) (w1 w2 w3 : World),
    fst (createWatermarkImage P text (imageOption (mergeOption option)) w) = Normal url
    /\ renderAndCommit P text option mountHooks w = (Normal h1, w1)
    /\ ref (Some el) h1 w1 = (Normal h2, w2)
    /\ renderAndCommit P text option h2 w2 = (Normal h3, w3)
    /\ styles w3 !! el = Some (watermarkStyle url (size (mergeOption option)))
    /\ (forall el' : nat, el' <> el -> styles w3 !! el' = styles w !! el')
    /\ nextRef w3 = S (nextRef w)
    /\ container h3 = Some el
    /\ memoCell h3 = Some (url, memoDepsOf text option).
Proof.
  intros Hctx Hst.
  pose proof (createWatermarkImage_run P text (imageOption (mergeOption option)) w Hctx)
    as Hpipe.
  set (url := encodeDataURL P "image/png"
                (canvasSizeOf P w text (imageOption (mergeOption option)))
                (canvasSizeOf P w text (imageOption (mergeOption option)))
                (finalPainted P w text (imageOption (mergeOption option))
                   (canvasSizeOf P w text (imageOption (mergeOption option))))) in *.
  set (w1 := withCanvases w
               (<[nextRef w := finalCanvas P w text (imageOption (mergeOption option))
                                 (canvasSizeOf P w text (imageOption (mergeOption option)))]>
                  (canvases w)) (S (nextRef w))) in *.
  assert (Huse1 : useWatermark P text option mountHooks w
                  = (Normal (mkRendered url
                               (mkHooks (container mountHooks) (Some (url, (memoDepsOf text option)))
                                        (effectCell mountHooks))
                               (container mountHooks, url, (size (mergeOption option)))), w1)).
  { rewrite useWatermark_miss by reflexivity. rewrite Hpipe. reflexivity. }
  pose proof (renderAndCommit_run _ _ _ _ _ _ Huse1) as Hrc1.
  cbn [mountHooks container effectCell memoCell] in Hrc1.
  change (bind (watermarkEffect (None, url, (size (mergeOption option))))
            (fun _ => ret (mkHooks None (Some (url, (memoDepsOf text option))) (Some (None, url, (size (mergeOption option)))))) w1)
    with (Normal (mkHooks None (Some (url, (memoDepsOf text option))) (Some (None, url, (size (mergeOption option))))), w1) in Hrc1.
  set (h1 := mkHooks None (Some (url, (memoDepsOf text option))) (Some (None, url, (size (mergeOption option))))) in *.
  assert (Hst1 : styles w1 !! el = Some st) by exact Hst.
  pose proof (ref_run el h1 st w1 Hst1) as Href.
  cbn [h1 memoCell effectCell] in Href.
  set (st2 := mkStyle "repeat" "none" "9999" (backgroundImage st) (backgroundSize st)) in *.
  set (w2 := withStyles w1 (<[el := st2]> (styles w1))) in *.
  set (h2 := mkHooks (Some el) (Some (url, (memoDepsOf text option))) (Some (None, url, (size (mergeOption option))))) in *.
  assert (Huse2 : useWatermark P text option h2 w2
                  = (Normal (mkRendered url
                               (mkHooks (container h2) (Some (url, (memoDepsOf text option))) (effectCell h2))
                               (container h2, url, (size (mergeOption option)))), w2)).
  { rewrite (useWatermark_hit P text option h2 url w2 eq_refl). reflexivity. }
  pose proof (renderAndCommit_run _ _ _ _ _ _ Huse2) as Hrc2.
  cbn [h2 container effectCell memoCell] in Hrc2.
  assert (Hrerun : negb (sameEffectDeps (None, url, (size (mergeOption option))) (Some el, url, (size (mergeOption option)))) = true)
    by reflexivity.
  rewrite Hrerun in Hrc2.
  assert (Hst2 : styles w2 !! el = Some st2) by apply lookup_insert_eq.
  rewrite (run_bind _ _ _ _ _ (watermarkEffect_run el url (size (mergeOption option)) st2 w2 Hst2)) in Hrc2.
  exists url, h1, h2, (mkHooks (Some el) (Some (url, (memoDepsOf text option))) (Some (Some el, url, (size (mergeOption option))))),
    w1, w2, (withStyles w2 (<[el := mkStyle (backgroundRepeat st2) (pointerEvents st2)
                                     (zIndex st2) ("url(" ++ url ++ ")")%string (size (mergeOption option))]>
                              (styles w2))).
  split; [rewrite Hpipe; reflexivity|]. split; [exact Hrc1|]. split; [exact Href|].
  split; [exact Hrc2|].
  cbn [withStyles styles nextRef container memoCell]. repeat split.
  - apply lookup_insert_eq.
  - intros el' Hne. rewrite lookup_insert_ne by congruence.
    unfold w2. cbn [withStyles styles]. rewrite lookup_insert_ne by congruence.
    reflexivity.
Qed.

(** X18.  Rendering again with the same inputs changes nothing: after a render and
    commit that returned, the same render and commit returns the same hooks
    and leaves the world as it is (no canvas is created, no style is
    written), with or without a context. *)
Theorem rerender_is_noop (text : string) (option : option WatermarkOption)
    (hooks h1 : Hooks) (w w1 : World) :
  renderAndCommit P text option hooks w = (Normal h1, w1) ->
  renderAndCommit P text option h1 w1 = (Normal h1, w1).
Proof.
  intros Hrun. destruct (renderAndCommit_normal _ _ _ _ _ _ Hrun) as [image ->].
  set (h1 := mkHooks (container hooks) (Some (image, memoDepsOf text option))
                     (Some (container hooks, image, size (mergeOption option)))).
  assert (Huse : useWatermark P text option h1 w1
                 = (Normal (mkRendered image
                              (mkHooks (container h1) (Some (image, memoDepsOf text option))
                                       (effectCell h1))
                              (container h1, image, size (mergeOption option))), w1)).
  { rewrite (useWatermark_hit P text option h1 image w1 eq_refl). reflexivity. }
  rewrite (renderAndCommit_run _ _ _ _ _ _ Huse).
  cbn [h1 container effectCell memoCell]. rewrite sameEffectDeps_refl. reflexivity.
Qed.

(** X19.  A new size alone reaches the page without a new tile: after a render and
    commit that returned with a container, rendering with another size
    creates no canvas, keeps the cached image, and writes the new size (and
    the cached image) on the container. *)
Theorem size_change_keeps_tile (text : string) (o : WatermarkOption) (size' : string)
    (hooks h1 : Hooks) (w w1 : World) (el : nat) (st : CSSStyle) :
  renderAndCommit P text (Some o) hooks w = (Normal h1, w1) ->
  container h1 = Some el ->
  styles w1 !! el = Some st ->
  size' <> size o ->
  exists (image : string) (h2 : Hooks) (w2 : World),
    memoCell h1 = Some (image, memoDepsOf text (Some o))
    /\ renderAndCommit P text (Some (withSize o size')) h1 w1 = (Normal h2, w2)
    /\ memoCell h2 = memoCell h1
    /\ canvases w2 = canvases w1
    /\ nextRef w2 = nextRef w1
    /\ styles w2 !! el
       = Some (mkStyle (backgroundRepeat st) (pointerEvents st) (zIndex st)
                       ("url(" ++ image ++ ")")%string size').
Proof.
  intros Hrun Hcont Hst Hsize.
  destruct (renderAndCommit_normal _ _ _ _ _ _ Hrun) as [image ->].
  cbn [container] in Hcont. cbn [mergeOption] in *.
  set (h1 := mkHooks (container hooks) (Some (image, memoDepsOf text (Some o)))
                     (Some (container hooks, image, size o))) in *.
  assert (Huse : useWatermark P text (Some (withSize o size')) h1 w1
                 = (Normal (mkRendered image
                              (mkHooks (container h1)
                                       (Some (image, memoDepsOf text (Some (withSize o size'))))
                                       (effectCell h1))
                              (container h1, image, size (mergeOption (Some (withSize o size'))))),
                    w1)).
  { rewrite (useWatermark_hit P text (Some (withSize o size')) h1 image w1 eq_refl).
    reflexivity. }
  pose proof (renderAndCommit_run _ _ _ _ _ _ Huse) as Hrc.
  cbn [h1 container effectCell memoCell mergeOption withSize size] in Hrc.
  assert (Hrerun : negb (sameEffectDeps (container hooks, image, size o)
                           (container hooks, image, size')) = true).
  { unfold sameEffectDeps. destruct (String.eqb_spec (size o) size') as [Heq|_].
    - congruence.
    - rewrite andb_false_r. reflexivity. }
  rewrite Hrerun, Hcont in Hrc.
  rewrite (run_bind _ _ _ _ _ (watermarkEffect_run el image size' st w1 Hst)) in Hrc.
  eexists image, _, _. split; [reflexivity|]. split; [exact Hrc|].
  cbn [memoCell withStyles canvases nextRef styles]. repeat split.
  apply lookup_insert_eq.
Qed.

(** X20.  The cached image outlives the world it was made in: after a render that
    returned, a render with the same text, font size, angle and opacity
    returns the cached image in every later world, whatever its pixel ratio
    and even when no context can be had any more, and leaves that world
    alone. *)
Theorem cached_image_ignores_world (text : string) (option : option WatermarkOption)
    (hooks : Hooks) (w w1 w' : World) (r : Rendered) :
  useWatermark P text option hooks w = (Normal r, w1) ->
  useWatermark P text option (hooksAfter r) w'
  = (Normal (mkRendered (watermarkImage r) (hooksAfter r)
               (container (hooksAfter r), watermarkImage r, size (mergeOption option))), w').
Proof.
  intros Hrun. apply useWatermark_hit. apply (useWatermark_cell P _ _ _ _ _ _ Hrun).
Qed.

(** X21.  The memo keeps one image only: after a render for some inputs and a
    render for other inputs, a render for the first inputs runs the pipeline
    again. *)
Theorem memo_keeps_one_image (textA textB : string) (optionA optionB : option WatermarkOption)
    (hooks0 : Hooks) (w0 wA wB : World) (rA rB : Rendered) :
  useWatermark P textA optionA hooks0 w0 = (Normal rA, wA) ->
  useWatermark P textB optionB (hooksAfter rA) wA = (Normal rB, wB) ->
  memoDepsOf textB optionB <> memoDepsOf textA optionA ->
  useWatermark P textA optionA (hooksAfter rB) wB
  = match createWatermarkImage P textA (imageOption (mergeOption optionA)) wB with
    | (Normal img, w') =>
        (Normal (mkRendered img
                   (mkHooks (container (hooksAfter rB)) (Some (img, memoDepsOf textA optionA))
                            (effectCell (hooksAfter rB)))
                   (container (hooksAfter rB), img, size (mergeOption optionA))), w')
    | (Throw e, w') => (Throw e, w')
    end
  /\ nextRef (snd (useWatermark P textA optionA (hooksAfter rB) wB)) = S (nextRef wB).
Proof.
  intros HA HB Hdeps.
  pose proof (useWatermark_cell P _ _ _ _ _ _ HB) as Hcell.
  assert (Hmiss : memoHit (hooksAfter rB) (memoDepsOf textA optionA) = false).
  { unfold memoHit. rewrite Hcell. apply sameMemoDeps_false. exact Hdeps. }
  rewrite (useWatermark_miss P _ _ _ _ Hmiss). split; [reflexivity|].
  destruct (createWatermarkImage_world P textA (imageOption (mergeOption optionA)) wB)
    as (Hnext & _).
  destruct (createWatermarkImage P textA (imageOption (mergeOption optionA)) wB)
    as [[img|e] w']; exact Hnext.
Qed.

End Binding.

Lemma pageWorld_style : styles pageWorld !! 0%nat = Some blankStyle.
Proof. apply lookup_singleton_eq. Qed.

(** [ref] on the element of the sample page. *)
Lemma ref_attaches_container_witness :
  exists (hooks' : Hooks) (w' : World),
    ref (Some 0%nat) mountHooks pageWorld = (Normal hooks', w')
    /\ container hooks' = Some 0%nat.
Proof.
  destruct (ref_attaches_container 0 mountHooks blankStyle pageWorld pageWorld_style)
    as (hooks' & w' & Href & Hcont & _).
  exists hooks', w'. split; assumption.
Defined.

(** The effect on the element of the sample page. *)
Lemma effect_sets_background_witness :
  exists w' : World,
    watermarkEffect (Some 0%nat, "data:,", "180px 180px") pageWorld = (Normal tt, w')
    /\ styles w' !! 0%nat = Some (mkStyle "" "" "" "url(data:,)" "180px 180px").
Proof.
  destruct (effect_sets_background 0 "data:," "180px 180px" blankStyle pageWorld
              pageWorld_style) as (w' & Hrun & Hst & _).
  exists w'. split; assumption.
Defined.

(** [ref] and the effect on the element of the sample page. *)
Lemma ref_and_effect_commute_witness :
  styles (snd (bind (ref (Some 0%nat) mountHooks)
                 (fun _ => watermarkEffect (Some 0%nat, "data:,", "180px 180px"))
                 pageWorld)) !! 0%nat
  = Some (watermarkStyle "data:," "180px 180px").
Proof.
  destruct (ref_and_effect_commute 0 mountHooks "data:," "180px 180px" blankStyle pageWorld
              pageWorld_style) as [_ H].
  exact H.
Defined.

(** Mounting on the sample page with the default options. *)
Lemma mount_attach_render_witness :
  exists (url : string) (w3 : World),
    styles w3 !! 0%nat = Some (watermarkStyle url "180px 180px")
    /\ nextRef w3 = 1%nat.
Proof.
  destruct (mount_attach_render samplePlatform "WATERMARK" None 0 blankStyle pageWorld
              eq_refl pageWorld_style)
    as (url & h1 & h2 & h3 & w1 & w2 & w3 & _ & _ & _ & _ & Hst & _ & Hnext & _).
  exists url, w3. split; assumption.
Defined.

(** A second render on the sample page. *)
Lemma rerender_is_noop_witness :
  exists (h1 : Hooks) (w1 : World),
    renderAndCommit samplePlatform "WATERMARK" None (mkHooks (Some 0%nat) None None) pageWorld
    = (Normal h1, w1)
    /\ renderAndCommit samplePlatform "WATERMARK" None h1 w1 = (Normal h1, w1).
Proof.
  destruct (renderAndCommit_first samplePlatform "WATERMARK" None 0 blankStyle pageWorld
              eq_refl pageWorld_style) as (h1 & w1 & st1 & Hrun & _).
  exists h1, w1. split; [exact Hrun|].
  exact (rerender_is_noop samplePlatform "WATERMARK" None _ h1 pageWorld w1 Hrun).
Defined.

(** A new size on the sample page. *)
Lemma size_change_keeps_tile_witness :
  exists (h1 h2 : Hooks) (w1 w2 : World),
    renderAndCommit samplePlatform "WATERMARK" (Some defaultOption)
      (mkHooks (Some 0%nat) None None) pageWorld = (Normal h1, w1)
    /\ renderAndCommit samplePlatform "WATERMARK" (Some (withSize defaultOption "90px 90px"))
         h1 w1 = (Normal h2, w2)
    /\ nextRef w2 = nextRef w1.
Proof.
  destruct (renderAndCommit_first samplePlatform "WATERMARK" (Some defaultOption) 0 blankStyle
              pageWorld eq_refl pageWorld_style) as (h1 & w1 & st1 & Hrun & Hcont & Hst).
  destruct (size_change_keeps_tile samplePlatform "WATERMARK" defaultOption "90px 90px"
              _ h1 pageWorld w1 0 st1 Hrun Hcont Hst ltac:(discriminate))
    as (image & h2 & w2 & _ & Hrun2 & _ & _ & Hnext & _).
  exists h1, h2, w1, w2. split; [exact Hrun|]. split; assumption.
Defined.

(** The cached image in a browser that lost its context. *)
Lemma cached_image_ignores_world_witness :
  exists r : Rendered,
    fst (useWatermark samplePlatform "WATERMARK" None (hooksAfter r) headlessWorld)
    = Normal (mkRendered (watermarkImage r) (hooksAfter r)
                (container (hooksAfter r), watermarkImage r, "180px 180px")).
Proof.
  destruct (useWatermark_returns samplePlatform "WATERMARK" None mountHooks sampleWorld
              eq_refl) as (r & w1 & Hrun & _).
  exists r.
  rewrite (cached_image_ignores_world samplePlatform "WATERMARK" None mountHooks sampleWorld
             w1 headlessWorld r Hrun).
  reflexivity.
Defined.

(** The texts A, B and A again on the sample browser. *)
Lemma memo_keeps_one_image_witness :
  exists (rB : Rendered) (wB : World),
    nextRef (snd (useWatermark samplePlatform "A" None (hooksAfter rB) wB)) = S (nextRef wB).
Proof.
  destruct (useWatermark_returns samplePlatform "A" None mountHooks sampleWorld eq_refl)
    as (rA & wA & HA & HctxA).
  destruct (useWatermark_returns samplePlatform "B" None (hooksAfter rA) wA HctxA)
    as (rB & wB & HB & _).
  exists rB, wB.
  refine (proj2 (memo_keeps_one_image samplePlatform "A" "B" None None mountHooks sampleWorld
                   wA wB rA rB HA HB _)).
  intros H. apply (f_equal (fun d : MemoDeps => fst (fst (fst d)))) in H.
  cbn in H. discriminate H.
Defined.
